(** * regex-simplifier: a shallow embedding of [regexToEnglish]

    The development follows [src/regexToEnglish.js].  JavaScript strings are
    modelled by [string]; a character is a code unit below 256.  The argument
    of [regexToEnglish] is an arbitrary JavaScript value, so the embedding
    starts with a small model of values and of truthiness.  The [while] loop
    of the narrator is run with fuel; the theorems show that the length of
    the pattern is always enough. *)

From Stdlib Require Import Bool Arith Lia List Sorted String Ascii ZArith.
Import ListNotations.

Local Open Scope list_scope.
Local Open Scope string_scope.

(** ** JavaScript string primitives used by the source *)

Module JSString.

(** [s[i]]: [None] stands for [undefined]. *)
Definition charAt (s : string) (i : nat) : option ascii := String.get i s.

(** [s.indexOf(c, from)] for a one-character needle; [None] stands for -1. *)
Fixpoint indexOf (c : ascii) (s : string) (from : nat) : option nat :=
  match s with
  | EmptyString => None
  | String a s' =>
      match from with
      | O => if (a =? c)%char then Some 0 else option_map S (indexOf c s' 0)
      | S from' => option_map S (indexOf c s' from')
      end
  end.

(** [s.substring(a, b)] for [a <= b]. *)
Definition substring (s : string) (a b : nat) : string :=
  String.substring a (b - a) s.

(** [s.includes(c)] for a one-character needle. *)
Fixpoint includes (c : ascii) (s : string) : bool :=
  match s with
  | EmptyString => false
  | String a s' => (a =? c)%char || includes c s'
  end.

(** [s.split(c)] for a one-character separator: never the empty list. *)
Fixpoint split (c : ascii) (s : string) : list string :=
  match s with
  | EmptyString => [EmptyString]
  | String a s' =>
      if (a =? c)%char then EmptyString :: split c s'
      else match split c s' with
           | [] => [String a EmptyString]
           | p :: ps => String a p :: ps
           end
  end.

Definition startsWith (s p : string) : bool := String.prefix p s.

Definition endsWith (s p : string) : bool :=
  (String.length p <=? String.length s)%nat
  && (String.substring (String.length s - String.length p) (String.length p) s =? p).

(** White space of [String.prototype.trim] among the code units below 256:
    TAB, LF, VT, FF, CR, SPACE and NBSP. *)
Definition isWhiteSpace (c : ascii) : bool :=
  let n := nat_of_ascii c in
  (((9 <=? n) && (n <=? 13)) || (n =? 32) || (n =? 160))%nat.

Fixpoint trimStart (s : string) : string :=
  match s with
  | EmptyString => EmptyString
  | String a s' => if isWhiteSpace a then trimStart s' else s
  end.

(** [trimEnd] keeps a character when it is not white space or when something
    is kept after it. *)
Fixpoint trimEnd (s : string) : string :=
  match s with
  | EmptyString => EmptyString
  | String a s' =>
      match trimEnd s' with
      | EmptyString => if isWhiteSpace a then EmptyString else String a EmptyString
      | t => String a t
      end
  end.

Definition trim (s : string) : string := trimEnd (trimStart s).

End JSString.

(** ** JavaScript values and completions *)

(** The values [regexToEnglish] can be called with.  Numbers matter only
    through their truthiness, so integers and [NaN] are enough; [JSObject]
    stands for every object that is not a [RegExp]. *)
Inductive JSValue : Type :=
| JSUndefined
| JSNull
| JSBoolean (b : bool)
| JSNumber (n : Z)
| JSNaN
| JSStr (s : string)
| JSRegExp (source flags : string)
| JSObject.

(** [!v] is [negb (truthy v)]. *)
Definition truthy (v : JSValue) : bool :=
  match v with
  | JSUndefined | JSNull | JSNaN => false
  | JSBoolean b => b
  | JSNumber n => negb (n =? 0)%Z
  | JSStr s => negb (s =? "")
  | JSRegExp _ _ | JSObject => true
  end.

(** A call either returns a string or throws an [Error] with a message. *)
Inductive completion : Type :=
| Return (s : string)
| Throw (message : string).

(** ** The regular expressions of the source

    The special-case table holds literal-text recognisers: characters,
    sequences, one optional group and the two anchors.  [matchRe r input pos]
    lists the end positions of the matches of [r] that start at [pos], in
    the order in which a backtracking matcher tries them. *)
Module Re.

Inductive re : Type :=
| Bol
| Eol
| Lit (s : string)
| Opt (r : re)
| Cat (r1 r2 : re).

Fixpoint matchRe (r : re) (input : string) (pos : nat) : list nat :=
  match r with
  | Bol => if (pos =? 0)%nat then [pos] else []
  | Eol => if (pos =? String.length input)%nat then [pos] else []
  | Lit s =>
      if String.substring pos (String.length s) input =? s
      then [pos + String.length s] else []
  | Opt r' => (matchRe r' input pos ++ [pos])%list
  | Cat r1 r2 => flat_map (matchRe r2 input) (matchRe r1 input pos)
  end.

(** [r.test(input)] for a regular expression without flags. *)
Definition test (r : re) (input : string) : bool :=
  existsb (fun pos => match matchRe r input pos with [] => false | _ => true end)
          (seq 0 (S (String.length input))).

Fixpoint seqRe (rs : list re) : re :=
  match rs with
  | [] => Lit ""
  | [r] => r
  | r :: rs' => Cat r (seqRe rs')
  end.

End Re.

(** ** The normalizer (lines 7-21 of the source) *)

Definition isFlagLetter (c : ascii) : bool :=
  ((c =? "g") || (c =? "i") || (c =? "m") || (c =? "u") || (c =? "y"))%char.

Fixpoint allFlagLetters (s : string) : bool :=
  match s with
  | EmptyString => true
  | String c s' => isFlagLetter c && allFlagLetters s'
  end.

(** [s.replace(/^\/|\/[gimuy]*$/g, '')].  The global replace tries the
    regular expression at each position from left to right.  The first
    alternative needs position 0 and a slash there, and is tried first.
    The second one needs a slash whose whole remainder, up to the end of
    the input, is made of flag letters; it then consumes that remainder.
    Every match is dropped and the search resumes behind it; [atStart]
    tells whether the head of [s] is position 0 of the input. *)
Fixpoint stripSlashes (atStart : bool) (s : string) : string :=
  match s with
  | EmptyString => EmptyString
  | String c s' =>
      if atStart && (c =? "/")%char then stripSlashes false s'
      else if (c =? "/")%char && allFlagLetters s' then EmptyString
      else String c (stripSlashes false s')
  end.

(** The first statements of [regexToEnglish]: the pattern source, or the
    message of the error thrown. *)
Definition normalize (regexPattern : JSValue) : string + string :=
  if negb (truthy regexPattern) then inr "Regex pattern is required"
  else match regexPattern with
       | JSRegExp source _ => inl source
       | JSStr pattern => inl (stripSlashes true pattern)
       | _ => inr "Regex pattern must be a string or RegExp object"
       end.

(** ** The special-case table (lines 24-52) *)

Import Re.

(** The five entries, each regular expression literal read token by token:
    an escaped character stands for itself, [^] and [$] are the anchors and
    [(...)?] is an optional group. *)
Definition explanations : list (re * string) :=
  [ (seqRe [Bol; Lit "\b[A-Za-z0-9._%-+]+@[A-Za-z0-9.-]+\.[A-Z|a-z]{2,}\b"; Eol],
     "Email address pattern");
    (seqRe [Bol; Lit "\d{3}-\d{2}-\d{4}"; Eol],
     "3 digits - 2 digits - 4 digits (SSN-like pattern)");
    (seqRe [Bol; Lit "\d{5}"; Opt (Lit "-\d{4}"); Lit "$"; Eol],
     "5 digits optionally followed by dash and 4 more digits (ZIP code)");
    (seqRe [Bol; Lit "\d{4}[\s-]?\d{4}[\s-]?\d{4}[\s-]?\d{4}"; Eol],
     "Credit card number (4 groups of 4 digits with optional separators)");
    (seqRe [Bol; Lit "https?:"],
     "URL starting with http or https") ].

(** The [for ... of] loop over the table: the explanation of the first entry
    whose recogniser accepts the pattern. *)
Fixpoint firstMatch (table : list (re * string)) (pattern : string) : option string :=
  match table with
  | [] => None
  | (regexCheck, explanation) :: rest =>
      if test regexCheck pattern then Some explanation else firstMatch rest pattern
  end.

(** ** The helpers (lines 205-237) *)

(** A template literal prints [undefined] for a missing value. *)
Definition render (x : option string) : string :=
  match x with Some s => s | None => "undefined" end.

Definition renderChar (x : option ascii) : string :=
  render (option_map (fun c => String c EmptyString) x).

Definition interpretCharacterClass (charClass : string) : string :=
  if charClass =? "a-z" then "lowercase letters"
  else if charClass =? "A-Z" then "uppercase letters"
  else if charClass =? "0-9" then "digits"
  else if charClass =? "a-zA-Z" then "letters"
  else if charClass =? "a-zA-Z0-9" then "letters and digits"
  else if charClass =? "A-Za-z0-9" then "letters and digits"
  else if JSString.includes "-" charClass then
    let parts := JSString.split "-" charClass in
    render (nth_error parts 0) ++ " through "
      ++ render (nth_error parts (List.length parts - 1))
  else charClass.

Fixpoint drop (n : nat) (s : string) : string :=
  match n, s with
  | O, _ => s
  | S n', String _ s' => drop n' s'
  | S _, EmptyString => EmptyString
  end.

(** The [for] loop of [findMatchingParen]: [rest] is the pattern from index
    [i] on.  A backslash skips itself and the next character. *)
Fixpoint findMatchingParenFrom (rest : string) (i : nat) (count : Z) : option nat :=
  match rest with
  | EmptyString => None
  | String c rest' =>
      if (c =? "\")%char then
        match rest' with
        | EmptyString => None
        | String _ rest'' => findMatchingParenFrom rest'' (i + 2) count
        end
      else
        let count1 := if (c =? "(")%char then (count + 1)%Z else count in
        let count2 := if (c =? ")")%char then (count1 - 1)%Z else count1 in
        if (count2 =? 0)%Z then Some i
        else findMatchingParenFrom rest' (i + 1) count2
  end.

Definition findMatchingParen (pattern : string) (start : nat) : option nat :=
  findMatchingParenFrom (drop (start + 1) pattern) (start + 1) 1%Z.

(** ** The tokenizing narrator (lines 55-188) *)

Import JSString.

(** The inner [switch] of the backslash case. *)
Definition escapePhrase (nextChar : option ascii) : string :=
  match nextChar with
  | Some c =>
      if (c =? "d")%char then "digit"
      else if (c =? "w")%char then "word character (letter, digit, or underscore)"
      else if (c =? "s")%char then "whitespace character"
      else if (c =? "b")%char then "word boundary"
      else if (c =? "D")%char then "non-digit"
      else if (c =? "W")%char then "non-word character"
      else if (c =? "S")%char then "non-whitespace character"
      else if (c =? "n")%char then "newline"
      else if (c =? "t")%char then "tab"
      else "literal " ++ renderChar nextChar
  | None => "literal " ++ renderChar nextChar
  end.

(** The text of a brace quantifier. *)
Definition quantifierPhrase (quantifier : string) : string :=
  if includes "," quantifier then
    let parts := split "," quantifier in
    let min := nth_error parts 0 in
    let max := nth_error parts 1 in
    match max with
    | Some EmptyString => " (" ++ render min ++ " or more times)"
    | _ => " (" ++ render min ++ " to " ++ render max ++ " times)"
    end
  else " (exactly " ++ quantifier ++ " times)".

(** [char.match(/[a-zA-Z0-9]/)] on a one-character string. *)
Definition isAlphaNum (c : ascii) : bool :=
  let n := nat_of_ascii c in
  (((97 <=? n) && (n <=? 122)) || ((65 <=? n) && (n <=? 90))
   || ((48 <=? n) && (n <=? 57)))%nat.

(** The outer [switch]: from the cursor [i], the character [char] under it
    and the text so far, the cursor and the text behind the [switch]. *)
Definition switchChar (pattern : string) (i : nat) (char : ascii)
    (explanation : string) : nat * string :=
  if (char =? "^")%char then (i, explanation ++ "Start of string/line, then ")
  else if (char =? "$")%char then (i, explanation ++ "end of string/line")
  else if (char =? ".")%char then (i, explanation ++ "any character")
  else if (char =? "*")%char then (i, explanation ++ " (zero or more times)")
  else if (char =? "+")%char then (i, explanation ++ " (one or more times)")
  else if (char =? "?")%char then (i, explanation ++ " (optional)")
  else if (char =? "\")%char then
    let i := i + 1 in
    let nextChar := charAt pattern i in
    (i, explanation ++ escapePhrase nextChar)
  else if (char =? "[")%char then
    match indexOf "]" pattern i with
    | Some closingBracket =>
        let charClass := substring pattern (i + 1) closingBracket in
        (closingBracket,
         explanation ++ "character from set: " ++ interpretCharacterClass charClass)
    | None => (i, explanation ++ "literal [")
    end
  else if (char =? "{")%char then
    match indexOf "}" pattern i with
    | Some closingBrace =>
        let quantifier := substring pattern (i + 1) closingBrace in
        (closingBrace, explanation ++ quantifierPhrase quantifier)
    | None => (i, explanation ++ "literal {")
    end
  else if (char =? "(")%char then
    match findMatchingParen pattern i with
    | Some _ => (i, explanation ++ "group: (")
    | None => (i, explanation ++ "literal (")
    end
  else if (char =? ")")%char then (i, explanation ++ ")")
  else if (char =? "|")%char then (i, explanation ++ " OR ")
  else if isAlphaNum char then (i, explanation ++ "literal " ++ String char EmptyString)
  else (i, explanation ++ "literal " ++ String char EmptyString).

(** [pattern[i] !== c]. *)
Definition charIsNot (pattern : string) (i : nat) (c : ascii) : bool :=
  match charAt pattern i with
  | Some a => negb (a =? c)%char
  | None => true
  end.

(** The condition of the "connecting words" [if]. *)
Definition wantsConnector (pattern : string) (i : nat) (explanation : string) : bool :=
  (i <? String.length pattern)%nat
  && negb (endsWith explanation " ")
  && negb (endsWith explanation "(")
  && charIsNot pattern i ")"
  && charIsNot pattern i "*" && charIsNot pattern i "+" && charIsNot pattern i "?"
  && charIsNot pattern i "{" && charIsNot pattern i "$".

Definition connect (pattern : string) (i : nat) (explanation : string) : string :=
  if wantsConnector pattern i explanation then explanation ++ ", then "
  else explanation.

(** One iteration of the [while] loop, entered with [i < pattern.length]. *)
Definition loopBody (pattern : string) (st : nat * string) : nat * string :=
  let '(i, explanation) := st in
  match charAt pattern i with
  | Some char =>
      let '(i1, explanation1) := switchChar pattern i char explanation in
      let i2 := i1 + 1 in
      (i2, connect pattern i2 explanation1)
  | None => st
  end.

(** The [while] loop; [None] when the fuel runs out before the loop ends. *)
Fixpoint whileLoop (fuel : nat) (pattern : string) (st : nat * string)
    : option string :=
  if (fst st <? String.length pattern)%nat then
    match fuel with
    | O => None
    | S fuel' => whileLoop fuel' pattern (loopBody pattern st)
    end
  else Some (snd st).

(** The cursor at the head of each iteration, in order. *)
Fixpoint cursorTrace (fuel : nat) (pattern : string) (st : nat * string)
    : list nat :=
  if (fst st <? String.length pattern)%nat then
    match fuel with
    | O => []
    | S fuel' => fst st :: cursorTrace fuel' pattern (loopBody pattern st)
    end
  else [].

(** ** The finalizer (lines 191-197) *)

(** [s.replace(/p$/, r)] for a literal [p]. *)
Definition replaceSuffix (p r s : string) : string :=
  if endsWith s p
  then String.substring 0 (String.length s - String.length p) s ++ r
  else s.

(** [s.replace(/^p/, r)] for a literal [p]. *)
Definition replacePrefix (p r s : string) : string :=
  if startsWith s p then r ++ drop (String.length p) s else s.

Definition cleanUp (explanation : string) : string :=
  trim
    (replaceSuffix ", then end of string/line" ", end of string/line"
       (replacePrefix "Start of string/line, then " "Start of string/line, "
          (replaceSuffix ", then " "" explanation))).

(** [explanation || "Complex regex pattern"]. *)
Definition orFallback (explanation : string) : string :=
  if explanation =? "" then "Complex regex pattern" else explanation.

(** ** [regexToEnglish] *)

(** The function behind the normalizer, on a pattern source. *)
Definition narrate (fuel : nat) (pattern : string) : option string :=
  match firstMatch explanations pattern with
  | Some explanation => Some explanation
  | None =>
      match whileLoop fuel pattern (0, "") with
      | Some explanation => Some (orFallback (cleanUp explanation))
      | None => None
      end
  end.

Definition regexToEnglish (fuel : nat) (regexPattern : JSValue) : option completion :=
  match normalize regexPattern with
  | inr message => Some (Throw message)
  | inl pattern => option_map Return (narrate fuel pattern)
  end.

(** ** Vocabulary of the statements *)

(** The call throws on [v]: some run ends in an error. *)
Definition throws (v : JSValue) : Prop :=
  exists fuel message, regexToEnglish fuel v = Some (Throw message).

(** The argument shapes the normalizer rejects: a falsy value, or a value
    that is neither a string nor a [RegExp]. *)
Definition isStringOrRegExp (v : JSValue) : bool :=
  match v with
  | JSStr _ | JSRegExp _ _ => true
  | _ => false
  end.

Definition invalidInput (v : JSValue) : bool :=
  negb (truthy v) || negb (isStringOrRegExp v).

(** Some slash of [s] is followed by flag letters only, up to the end. *)
Fixpoint endsWithSlashFlags (s : string) : bool :=
  match s with
  | EmptyString => false
  | String c s' => ((c =? "/")%char && allFlagLetters s') || endsWithSlashFlags s'
  end.

(** The complete wrapper: an opening slash, and behind it a closing slash
    followed by flag letters. *)
Definition isWrappedLiteral (s : string) : bool :=
  match s with
  | String c s' => (c =? "/")%char && endsWithSlashFlags s'
  | EmptyString => false
  end.

(** Dropping one leading slash, and cutting at a slash followed by flag
    letters up to the end. *)
Definition stripLeadingSlash (s : string) : string :=
  match s with
  | String c s' => if (c =? "/")%char then s' else s
  | EmptyString => EmptyString
  end.

Fixpoint stripTrailingSlashFlags (s : string) : string :=
  match s with
  | EmptyString => EmptyString
  | String c s' =>
      if (c =? "/")%char && allFlagLetters s' then EmptyString
      else String c (stripTrailingSlashFlags s')
  end.

(** The characters after which the source adds no connector. *)
Definition suppressesConnector (c : ascii) : bool :=
  ((c =? ")") || (c =? "*") || (c =? "+") || (c =? "?") || (c =? "{")
   || (c =? "$"))%char.

(** The positions of a trailing run of backslashes: the run starts at [k],
    reaches the end of the pattern and is not preceded by a backslash. *)
Definition trailingBackslashRun (pattern : string) (k : nat) : Prop :=
  k < String.length pattern
  /\ (forall j, k <= j < String.length pattern -> charAt pattern j = Some "\"%char)
  /\ (forall j, S j = k -> charAt pattern j <> Some "\"%char).

(** The cursors the scan can take when the run starts at [k]: any position up
    to [k], and every second position behind it. *)
Definition onPair (k i : nat) : Prop := Nat.Even (i - k).

(** The last character is a backslash that no earlier backslash escapes: the
    trailing run of backslashes has odd length. *)
Definition endsWithLoneBackslash (pattern : string) : Prop :=
  exists k, trailingBackslashRun pattern k
            /\ Nat.Odd (String.length pattern - k).

(** *** Vocabulary of the further properties *)

(** The nesting depth behind a group body entered at [depth], escape pairs
    skipped; [None] when a closing parenthesis has no opening one in the
    body, or when the body ends in a backslash with nothing to escape. *)
Fixpoint parenDepth (s : string) (depth : nat) : option nat :=
  match s with
  | EmptyString => Some depth
  | String c s' =>
      if (c =? "\")%char then
        match s' with
        | EmptyString => None
        | String _ s'' => parenDepth s'' depth
        end
      else if (c =? "(")%char then parenDepth s' (S depth)
      else if (c =? ")")%char then
        match depth with
        | O => None
        | S depth' => parenDepth s' depth'
        end
      else parenDepth s' depth
  end.

(** What it means for [r] to match [input] from [pos] to [q]. *)
Fixpoint matchesAt (r : re) (input : string) (pos q : nat) : Prop :=
  match r with
  | Bol => pos = 0 /\ q = pos
  | Eol => pos = String.length input /\ q = pos
  | Lit s => String.substring pos (String.length s) input = s
             /\ q = pos + String.length s
  | Opt r' => matchesAt r' input pos q \/ q = pos
  | Cat r1 r2 => exists m, matchesAt r1 input pos m /\ matchesAt r2 input m q
  end.

(** The six bracket contents [interpretCharacterClass] tests for. *)
Definition isCanonicalClass (charClass : string) : bool :=
  (charClass =? "a-z") || (charClass =? "A-Z") || (charClass =? "0-9")
  || (charClass =? "a-zA-Z") || (charClass =? "a-zA-Z0-9")
  || (charClass =? "A-Za-z0-9").

Fixpoint allAlphaNum (s : string) : bool :=
  match s with
  | EmptyString => true
  | String c s' => isAlphaNum c && allAlphaNum s'
  end.

(** The literal fragments of the characters of [s], with the connector
    between them. *)
Fixpoint literals (s : string) : string :=
  match s with
  | EmptyString => EmptyString
  | String c EmptyString => "literal " ++ String c EmptyString
  | String c s' => "literal " ++ String c EmptyString ++ ", then " ++ literals s'
  end.

(** Splits on the first character test of the goal, keeping the equation. *)
Ltac case_char :=
  match goal with
  | |- context [Ascii.eqb ?c ?d] =>
      let E := fresh "E" in destruct (Ascii.eqb c d) eqn:E
  end.

(** * Sanity checks on concrete inputs *)

Example narrate_class_plus :
  regexToEnglish 10 (JSStr "[a-z]+")
  = Some (Return "character from set: lowercase letters (one or more times)").
Proof. vm_compute. reflexivity. Qed.

Example narrate_alternation :
  regexToEnglish 10 (JSStr "a|b") = Some (Return "literal a, then  OR literal b").
Proof. vm_compute. reflexivity. Qed.

Example narrate_group :
  regexToEnglish 10 (JSStr "(ab)")
  = Some (Return "group: (literal a, then literal b)").
Proof. vm_compute. reflexivity. Qed.

Example narrate_null : regexToEnglish 0 JSNull = Some (Throw "Regex pattern is required").
Proof. reflexivity. Qed.

(** * Facts about the string primitives *)

Section StringFacts.

Lemma charAt_lt (s : string) (i : nat) :
  i < String.length s -> exists c, charAt s i = Some c.
Proof.
  revert i; induction s as [|a s IH]; intros i Hi; simpl in Hi; [lia|].
  destruct i as [|i]; [now exists a|].
  apply (IH i); lia.
Qed.

Lemma charAt_some (s : string) (i : nat) (c : ascii) :
  charAt s i = Some c -> i < String.length s.
Proof.
  revert i; induction s as [|a s IH]; intros i Hc; [discriminate|].
  destruct i as [|i]; simpl; [lia|].
  apply IH in Hc; lia.
Qed.

Lemma charAt_ge (s : string) (i : nat) :
  String.length s <= i -> charAt s i = None.
Proof.
  intros Hi; destruct (charAt s i) as [c|] eqn:E; [|reflexivity].
  apply charAt_some in E; lia.
Qed.

(** [indexOf] answers a position at or behind [from] that holds [c]. *)
Lemma indexOf_spec (c : ascii) (s : string) (from k : nat) :
  indexOf c s from = Some k ->
  from <= k /\ k < String.length s /\ charAt s k = Some c.
Proof.
  revert from k; induction s as [|a s IH]; intros from k H; [discriminate|].
  simpl in H; destruct from as [|from].
  - destruct (Ascii.eqb_spec a c) as [->|_].
    + injection H as <-; simpl; repeat split; lia.
    + destruct (indexOf c s 0) as [j|] eqn:E; [|discriminate].
      injection H as <-; destruct (IH 0 j E) as (_ & Hlt & Hc).
      simpl; repeat split; [lia|lia|exact Hc].
  - destruct (indexOf c s from) as [j|] eqn:E; [|discriminate].
    injection H as <-; destruct (IH from j E) as (Hle & Hlt & Hc).
    simpl; repeat split; [lia|lia|exact Hc].
Qed.

(** No position between [from] and the answer holds [c]. *)
Lemma indexOf_first (c : ascii) (s : string) (from k j : nat) :
  indexOf c s from = Some k -> from <= j < k -> charAt s j <> Some c.
Proof.
  revert from k j; induction s as [|a s IH]; intros from k j H Hj; [discriminate|].
  simpl in H; destruct from as [|from].
  - destruct (Ascii.eqb_spec a c) as [->|Hne].
    + injection H as <-; lia.
    + destruct (indexOf c s 0) as [m|] eqn:E; [|discriminate].
      injection H as <-; destruct j as [|j]; simpl.
      * intros [=]; contradiction.
      * apply (IH 0 m j E); lia.
  - destruct (indexOf c s from) as [m|] eqn:E; [|discriminate].
    injection H as <-; destruct j as [|j]; [lia|].
    apply (IH from m j E); lia.
Qed.

Lemma append_assoc (a b c : string) : (a ++ b) ++ c = a ++ b ++ c.
Proof. induction a as [|x a IH]; simpl; [reflexivity|now rewrite IH]. Qed.

Lemma length_append (a b : string) :
  String.length (a ++ b) = String.length a + String.length b.
Proof. induction a as [|x a IH]; simpl; [reflexivity|now rewrite IH]. Qed.

(** A substring taken behind [a] in [a ++ b] is a substring of [b]. *)
Lemma substring_append_r (a b : string) (k m : nat) :
  String.substring (String.length a + k) m (a ++ b) = String.substring k m b.
Proof. induction a as [|x a IH]; simpl; [reflexivity|exact IH]. Qed.

(** The text ends with the fragment appended last. *)
Lemma endsWith_append (a b : string) : endsWith (a ++ b) b = true.
Proof.
  unfold endsWith; rewrite length_append.
  replace (String.length a + String.length b - String.length b)
    with (String.length a + 0) by lia.
  rewrite substring_append_r.
  apply andb_true_intro; split; [apply Nat.leb_le; lia|].
  apply String.eqb_eq.
  clear a; induction b as [|x b IH]; simpl; [reflexivity|now rewrite IH].
Qed.

End StringFacts.

(** * Facts about the narrator's loop *)

Section LoopFacts.

Variable pattern : string.

(** The [switch] never moves the cursor backward. *)
Lemma switchChar_cursor (i : nat) (char : ascii) (e : string) :
  i <= fst (switchChar pattern i char e).
Proof.
  unfold switchChar.
  repeat (case_char; [simpl; lia|]).
  case_char.
  { destruct (indexOf "]" pattern i) as [k|] eqn:Hk; simpl; [|lia].
    apply indexOf_spec in Hk; lia. }
  case_char.
  { destruct (indexOf "}" pattern i) as [k|] eqn:Hk; simpl; [|lia].
    apply indexOf_spec in Hk; lia. }
  case_char.
  { destruct (findMatchingParen pattern i); simpl; lia. }
  repeat (case_char; [simpl; lia|]).
  destruct (isAlphaNum char); simpl; lia.
Qed.

(** What one iteration does, in terms of the [switch] and the connector. *)
Lemma loopBody_eq (i : nat) (char : ascii) (e : string) :
  charAt pattern i = Some char ->
  loopBody pattern (i, e)
  = (fst (switchChar pattern i char e) + 1,
     connect pattern (fst (switchChar pattern i char e) + 1)
       (snd (switchChar pattern i char e))).
Proof.
  intros Hc; unfold loopBody; rewrite Hc.
  now destruct (switchChar pattern i char e).
Qed.

Lemma loopBody_cursor (i : nat) (e : string) :
  i < String.length pattern -> i < fst (loopBody pattern (i, e)).
Proof.
  intros Hi; destruct (charAt_lt pattern i Hi) as [char Hc].
  rewrite (loopBody_eq i char e Hc); simpl.
  pose proof (switchChar_cursor i char e); lia.
Qed.

Lemma whileLoop_done (fuel : nat) (st : nat * string) :
  String.length pattern <= fst st -> whileLoop fuel pattern st = Some (snd st).
Proof.
  intros H; destruct fuel; simpl;
    destruct (Nat.ltb_spec (fst st) (String.length pattern)); (lia || reflexivity).
Qed.

Lemma whileLoop_step (fuel : nat) (st : nat * string) :
  fst st < String.length pattern ->
  whileLoop (S fuel) pattern st = whileLoop fuel pattern (loopBody pattern st).
Proof.
  intros H; simpl.
  destruct (Nat.ltb_spec (fst st) (String.length pattern)); (lia || reflexivity).
Qed.

(** The loop ends within as many iterations as characters are left. *)
Lemma whileLoop_terminates (fuel : nat) (st : nat * string) :
  String.length pattern - fst st <= fuel ->
  exists e, whileLoop fuel pattern st = Some e.
Proof.
  revert st; induction fuel as [|fuel IH]; intros [i e] Hf; simpl in Hf.
  - exists e; apply whileLoop_done; simpl; lia.
  - destruct (Nat.lt_ge_cases i (String.length pattern)) as [Hi|Hi].
    + rewrite whileLoop_step by exact Hi.
      apply IH; pose proof (loopBody_cursor i e Hi); lia.
    + exists e; apply whileLoop_done; simpl; lia.
Qed.

(** More fuel does not change a result. *)
Lemma whileLoop_more_fuel (fuel fuel' : nat) (st : nat * string) (e : string) :
  whileLoop fuel pattern st = Some e -> fuel <= fuel' ->
  whileLoop fuel' pattern st = Some e.
Proof.
  revert fuel' st; induction fuel as [|fuel IH]; intros fuel' st H Hle.
  - simpl in H.
    destruct (Nat.ltb_spec (fst st) (String.length pattern)); [discriminate|].
    rewrite whileLoop_done by assumption; exact H.
  - destruct fuel' as [|fuel']; [lia|].
    destruct (Nat.lt_ge_cases (fst st) (String.length pattern)) as [Hi|Hi].
    + rewrite whileLoop_step in * by exact Hi.
      apply IH; [exact H|lia].
    + rewrite whileLoop_done in * by exact Hi; exact H.
Qed.

(** The cursors of the iterations increase strictly and stay in range. *)
Lemma cursorTrace_sorted (fuel : nat) (st : nat * string) :
  StronglySorted lt (cursorTrace fuel pattern st)
  /\ Forall (fun j => fst st <= j < String.length pattern)
       (cursorTrace fuel pattern st).
Proof.
  revert st; induction fuel as [|fuel IH]; intros [i e]; cbn [cursorTrace fst].
  - destruct (i <? String.length pattern)%nat; split; constructor.
  - destruct (Nat.ltb_spec i (String.length pattern)) as [Hi|Hi];
      [|split; constructor].
    pose proof (loopBody_cursor i e Hi) as Hlt.
    remember (loopBody pattern (i, e)) as st' eqn:Hst'.
    destruct (IH st') as [Hs Hf].
    split.
    + constructor; [exact Hs|].
      eapply Forall_impl; [|exact Hf]; intros a Ha; cbv beta in Ha; lia.
    + constructor; [simpl; lia|].
      eapply Forall_impl; [|exact Hf]; intros a Ha; cbv beta in *; simpl; lia.
Qed.

End LoopFacts.

(** * Facts about the table and the finalizer *)

Lemma firstMatch_in (table : list (re * string)) (pattern e : string) :
  firstMatch table pattern = Some e -> In e (map snd table).
Proof.
  induction table as [|[r x] table IH]; simpl; [discriminate|].
  destruct (test r pattern); [intros [= ->]; now left|].
  intros H; right; exact (IH H).
Qed.

Lemma explanations_nonempty (pattern e : string) :
  firstMatch explanations pattern = Some e -> e <> "".
Proof.
  intros H; apply firstMatch_in in H; simpl in H.
  repeat (destruct H as [<-|H]; [discriminate|]); contradiction.
Qed.

Lemma orFallback_nonempty (e : string) : orFallback e <> "".
Proof.
  unfold orFallback; destruct (String.eqb_spec e ""); [discriminate|assumption].
Qed.

(** With enough fuel [narrate] answers, and the answer is not empty. *)
Lemma narrate_returns (pattern : string) :
  exists text, text <> ""
    /\ forall fuel, String.length pattern <= fuel -> narrate fuel pattern = Some text.
Proof.
  unfold narrate.
  destruct (firstMatch explanations pattern) as [x|] eqn:Hm.
  - exists x; split; [now apply explanations_nonempty in Hm|reflexivity].
  - destruct (whileLoop_terminates pattern (String.length pattern) (0, ""))
      as [e He]; [simpl; lia|].
    exists (orFallback (cleanUp e)); split; [apply orFallback_nonempty|].
    intros fuel Hf.
    now rewrite (whileLoop_more_fuel pattern _ fuel _ _ He Hf).
Qed.

Lemma StronglySorted_lt_NoDup (l : list nat) : StronglySorted lt l -> NoDup l.
Proof.
  induction 1 as [|a l Hs IH Hf]; constructor; [|exact IH].
  intros Hin; rewrite Forall_forall in Hf; specialize (Hf a Hin); lia.
Qed.

(** A consumed span moves the cursor just behind its closing character. *)
Lemma loopBody_span (pattern : string) (i k : nat) (e : string)
    (opening closing : ascii) :
  (opening = "[" /\ closing = "]" \/ opening = "{" /\ closing = "}")%char ->
  charAt pattern i = Some opening ->
  indexOf closing pattern i = Some k ->
  i < k /\ fst (loopBody pattern (i, e)) = k + 1.
Proof.
  intros Hoc Hc Hk.
  pose proof (indexOf_spec _ _ _ _ Hk) as (Hle & _ & Hck).
  split.
  - destruct (Nat.eq_dec i k) as [->|]; [|lia].
    rewrite Hc in Hck; injection Hck as Heq.
    destruct Hoc as [[-> ->]|[-> ->]]; discriminate.
  - rewrite (loopBody_eq pattern i opening e Hc).
    destruct Hoc as [[-> ->]|[-> ->]]; unfold switchChar; simpl; now rewrite Hk.
Qed.

(** * The claims *)

(** C9: over one pass the cursor strictly increases from one iteration to
    the next; a consumed bracket or brace span moves it forward, just behind
    the closing character; the positions handled by the iterations are
    strictly increasing, so none is handled twice; and the loop ends for
    every pattern source, within as many iterations as it has characters. *)
Theorem C9_cursor_strictly_increasing (pattern : string) :
  (forall i e, i < String.length pattern -> i < fst (loopBody pattern (i, e)))
  /\ (forall i k e, charAt pattern i = Some "["%char ->
        indexOf "]" pattern i = Some k ->
        i < k /\ fst (loopBody pattern (i, e)) = k + 1)
  /\ (forall i k e, charAt pattern i = Some "{"%char ->
        indexOf "}" pattern i = Some k ->
        i < k /\ fst (loopBody pattern (i, e)) = k + 1)
  /\ (forall fuel st, StronglySorted lt (cursorTrace fuel pattern st)
        /\ NoDup (cursorTrace fuel pattern st))
  /\ (exists e, forall fuel, String.length pattern <= fuel ->
        whileLoop fuel pattern (0, "") = Some e).
Proof.
  split; [|split; [|split; [|split]]].
  - intros i e; apply loopBody_cursor.
  - intros i k e; apply loopBody_span; now left.
  - intros i k e; apply loopBody_span; now right.
  - intros fuel st; pose proof (cursorTrace_sorted pattern fuel st) as [Hs _].
    split; [exact Hs|now apply StronglySorted_lt_NoDup].
  - destruct (whileLoop_terminates pattern (String.length pattern) (0, ""))
      as [e He]; [simpl; lia|].
    exists e; intros fuel Hf; exact (whileLoop_more_fuel pattern _ fuel _ _ He Hf).
Qed.

Lemma C9_cursor_strictly_increasing_witness :
  0 < fst (loopBody "[a-z]+x" (0, ""))
  /\ fst (loopBody "[a-z]+x" (0, "")) = 4 + 1
  /\ cursorTrace 7 "[a-z]+x" (0, "") = [0; 5; 6]
  /\ exists e, whileLoop 7 "[a-z]+x" (0, "") = Some e.
Proof.
  destruct (C9_cursor_strictly_increasing "[a-z]+x") as (H1 & H2 & _ & _ & [e H5]).
  split; [apply H1; simpl; lia|].
  split; [apply (H2 0 4 ""); reflexivity|].
  split; [reflexivity|].
  exists e; apply H5; simpl; lia.
Defined.

(** C6: [regexToEnglish] throws exactly when the argument is falsy or is
    neither a string nor a [RegExp]; the error needs no iteration of the
    scan (it is there with no fuel at all), and every other argument makes
    the call return a string. *)
Theorem C6_invalid_input_iff_throws (v : JSValue) :
  (throws v <-> invalidInput v = true)
  /\ (invalidInput v = true ->
        exists message, regexToEnglish 0 v = Some (Throw message))
  /\ (invalidInput v = false ->
        exists pattern text, normalize v = inl pattern
          /\ forall fuel, String.length pattern <= fuel ->
               regexToEnglish fuel v = Some (Return text)).
Proof.
  assert (Hbad : invalidInput v = true ->
                 exists message, forall fuel, regexToEnglish fuel v = Some (Throw message)).
  { unfold regexToEnglish, normalize, invalidInput.
    destruct v as [| |b|n| |s|src fl|]; simpl; try (intros _; eexists; reflexivity).
    - destruct b; simpl; intros _; eexists; reflexivity.
    - destruct (n =? 0)%Z; simpl; intros _; eexists; reflexivity.
    - destruct (s =? ""); simpl; [intros _; eexists; reflexivity|discriminate].
    - discriminate. }
  assert (Hgood : invalidInput v = false ->
                  exists pattern text, normalize v = inl pattern
                    /\ forall fuel, String.length pattern <= fuel ->
                         regexToEnglish fuel v = Some (Return text)).
  { intros Hv.
    assert (exists pattern, normalize v = inl pattern) as [pattern Hn].
    { unfold normalize, invalidInput in *.
      destruct v as [| |b|n| |s|src fl|]; simpl in *;
        try discriminate; try (rewrite orb_true_r in Hv; discriminate).
      - destruct (s =? ""); simpl in *; [discriminate|eexists; reflexivity].
      - eexists; reflexivity. }
    destruct (narrate_returns pattern) as (text & _ & Ht).
    exists pattern, text; split; [exact Hn|].
    intros fuel Hf; unfold regexToEnglish; rewrite Hn, (Ht fuel Hf); reflexivity. }
  split; [split|split; [|exact Hgood]].
  - intros (fuel & message & Ht).
    destruct (invalidInput v) eqn:Hv; [reflexivity|].
    destruct (Hgood eq_refl) as (pattern & text & Hn & _).
    unfold regexToEnglish in Ht; rewrite Hn in Ht.
    destruct (narrate fuel pattern); discriminate.
  - intros Hv; destruct (Hbad Hv) as [message Hm].
    exists 0, message; apply Hm.
  - intros Hv; destruct (Hbad Hv) as [message Hm]; exists message; apply Hm.
Qed.

Lemma C6_invalid_input_iff_throws_witness :
  (exists message, regexToEnglish 0 (JSNumber 7) = Some (Throw message))
  /\ (exists pattern text, normalize (JSStr "/ab/g") = inl pattern
        /\ regexToEnglish 2 (JSStr "/ab/g") = Some (Return text)).
Proof.
  split.
  - destruct (C6_invalid_input_iff_throws (JSNumber 7)) as (_ & H & _).
    apply H; reflexivity.
  - destruct (C6_invalid_input_iff_throws (JSStr "/ab/g")) as (_ & _ & H).
    destruct (H eq_refl) as (pattern & text & Hn & Ht).
    exists pattern, text; split; [exact Hn|].
    apply Ht; injection Hn as <-; simpl; lia.
Defined.

(** A result does not depend on the fuel left over. *)
Lemma regexToEnglish_more_fuel (fuel fuel' : nat) (v : JSValue) (c : completion) :
  regexToEnglish fuel v = Some c -> fuel <= fuel' -> regexToEnglish fuel' v = Some c.
Proof.
  unfold regexToEnglish, narrate; intros H Hle.
  destruct (normalize v) as [pattern|message]; [|exact H].
  destruct (firstMatch explanations pattern); [exact H|].
  destruct (whileLoop fuel pattern (0, "")) as [e|] eqn:He; [|discriminate].
  now rewrite (whileLoop_more_fuel pattern _ fuel' _ _ He Hle).
Qed.

(** An accepted argument makes the call return a string that is not empty. *)
Lemma accepted_returns (v : JSValue) (pattern : string) :
  normalize v = inl pattern ->
  exists text, text <> ""
    /\ forall fuel, String.length pattern <= fuel ->
         regexToEnglish fuel v = Some (Return text).
Proof.
  intros Hn; destruct (narrate_returns pattern) as (text & Hne & Ht).
  exists text; split; [exact Hne|].
  intros fuel Hf; unfold regexToEnglish; rewrite Hn, (Ht fuel Hf); reflexivity.
Qed.

(** C7: for every argument the normalizer accepts the call returns a string
    that is not empty; when no table entry applies and the cleaned narration
    is empty, that string is the fallback; the argument ["//"] is such a
    case. *)
Theorem C7_result_never_empty :
  (forall v pattern, normalize v = inl pattern ->
     exists text, text <> ""
       /\ (forall fuel, String.length pattern <= fuel ->
             regexToEnglish fuel v = Some (Return text))
       /\ (forall fuel assembled,
             firstMatch explanations pattern = None ->
             whileLoop fuel pattern (0, "") = Some assembled ->
             cleanUp assembled = "" ->
             text = "Complex regex pattern"))
  /\ normalize (JSStr "//") = inl ""
  /\ (forall fuel, regexToEnglish fuel (JSStr "//")
                   = Some (Return "Complex regex pattern")).
Proof.
  split; [|split; [reflexivity|]].
  - intros v pattern Hn.
    destruct (accepted_returns v pattern Hn) as (text & Hne & Ht).
    exists text; split; [exact Hne|split; [exact Ht|]].
    intros fuel assembled Hm Hw Hc.
    specialize (Ht (Nat.max fuel (String.length pattern)) (Nat.le_max_r _ _)).
    unfold regexToEnglish, narrate in Ht; rewrite Hn, Hm in Ht.
    rewrite (whileLoop_more_fuel pattern _ _ _ _ Hw (Nat.le_max_l _ _)) in Ht.
    rewrite Hc in Ht; simpl in Ht; now injection Ht as <-.
  - intros fuel; apply (regexToEnglish_more_fuel 0); [reflexivity|lia].
Qed.

Lemma C7_result_never_empty_witness :
  exists text, text <> ""
    /\ regexToEnglish 1 (JSStr "/./") = Some (Return text).
Proof.
  destruct C7_result_never_empty as [H _].
  destruct (H (JSStr "/./") "." eq_refl) as (text & Hne & Ht & _).
  exists text; split; [exact Hne|apply Ht; simpl; lia].
Defined.

(** C5: when the scan stands on an opening parenthesis, bracket or brace
    for which the search of the closing character fails, the iteration
    appends the literal fragment of that character and moves the cursor to
    the next position; the call still returns a string; for [(abc] it
    returns the narration that starts with "literal (". *)
Theorem C5_unmatched_opening_is_literal (pattern : string) :
  (forall i e, charAt pattern i = Some "("%char ->
     findMatchingParen pattern i = None ->
     loopBody pattern (i, e)
     = (i + 1, connect pattern (i + 1) (e ++ "literal (")))
  /\ (forall i e, charAt pattern i = Some "["%char ->
        indexOf "]" pattern i = None ->
        loopBody pattern (i, e)
        = (i + 1, connect pattern (i + 1) (e ++ "literal [")))
  /\ (forall i e, charAt pattern i = Some "{"%char ->
        indexOf "}" pattern i = None ->
        loopBody pattern (i, e)
        = (i + 1, connect pattern (i + 1) (e ++ "literal {")))
  /\ (forall v, normalize v = inl pattern ->
        exists text, forall fuel, String.length pattern <= fuel ->
          regexToEnglish fuel v = Some (Return text))
  /\ (forall fuel, 4 <= fuel ->
        regexToEnglish fuel (JSStr "(abc")
        = Some (Return "literal (literal a, then literal b, then literal c")
        /\ regexToEnglish fuel (JSStr "[abc")
           = Some (Return "literal [, then literal a, then literal b, then literal c")
        /\ regexToEnglish fuel (JSStr "{abc")
           = Some (Return "literal {, then literal a, then literal b, then literal c")).
Proof.
  split; [|split; [|split; [|split]]].
  - intros i e Hc Hf; rewrite (loopBody_eq pattern i _ e Hc).
    unfold switchChar; simpl; now rewrite Hf.
  - intros i e Hc Hf; rewrite (loopBody_eq pattern i _ e Hc).
    unfold switchChar; simpl; now rewrite Hf.
  - intros i e Hc Hf; rewrite (loopBody_eq pattern i _ e Hc).
    unfold switchChar; simpl; now rewrite Hf.
  - intros v Hn; destruct (accepted_returns v pattern Hn) as (text & _ & Ht).
    now exists text.
  - intros fuel Hf; repeat split;
      apply (regexToEnglish_more_fuel 4); (reflexivity || exact Hf).
Qed.

Lemma C5_unmatched_opening_is_literal_witness :
  loopBody "(abc" (0, "") = (1, "literal (")
  /\ regexToEnglish 4 (JSStr "(abc")
     = Some (Return "literal (literal a, then literal b, then literal c").
Proof.
  destruct (C5_unmatched_opening_is_literal "(abc") as (H1 & _ & _ & _ & H5).
  split; [exact (H1 0 "" eq_refl eq_refl)|].
  destruct (H5 4 (le_n 4)) as [H _]; exact H.
Defined.

(** The condition of the connector, in terms of the character under the
    new cursor. *)
Lemma wantsConnector_eq (pattern : string) (i : nat) (e : string) :
  wantsConnector pattern i e
  = match charAt pattern i with
    | Some next =>
        negb (endsWith e " ") && negb (endsWith e "(")
        && negb (suppressesConnector next)
    | None => false
    end.
Proof.
  unfold wantsConnector, charIsNot, suppressesConnector.
  destruct (charAt pattern i) as [next|] eqn:Hc.
  - apply charAt_some in Hc; apply Nat.ltb_lt in Hc; rewrite Hc.
    destruct (endsWith e " "), (endsWith e "("); simpl; try reflexivity.
    repeat (case_char; simpl; try reflexivity).
  - destruct (Nat.ltb_spec i (String.length pattern)) as [Hi|Hi]; [|reflexivity].
    destruct (charAt_lt pattern i Hi) as [c Hc']; congruence.
Qed.

(** C8, as stated, fails: in [(a)] the character after the opening
    parenthesis is none of the listed ones, and no connector follows the
    fragment "group: (". *)
Lemma C8_counterexample :
  ~ (forall pattern i char e next,
       charAt pattern i = Some char ->
       charAt pattern (fst (switchChar pattern i char e) + 1) = Some next ->
       suppressesConnector next = false ->
       snd (loopBody pattern (i, e))
       = snd (switchChar pattern i char e) ++ ", then ").
Proof.
  intros H.
  specialize (H "(a)" 0 "("%char "" "a"%char eq_refl eq_refl eq_refl).
  vm_compute in H; discriminate.
Qed.

(** C8, amended: behind a fragment the connector ", then " is appended
    exactly when a next character exists, the text so far ends neither with
    a space nor with an opening parenthesis, and the next character is none
    of [)], [*], [+], [?], [{] and [$]; in particular it is never appended
    before one of these six characters, and [a*] is narrated as
    "literal a (zero or more times)". *)
Theorem C8_connector_rule (pattern : string) (i : nat) (char : ascii) (e : string) :
  charAt pattern i = Some char ->
  let i' := fst (switchChar pattern i char e) + 1 in
  let text := snd (switchChar pattern i char e) in
  loopBody pattern (i, e)
  = (i', match charAt pattern i' with
         | Some next =>
             if negb (endsWith text " ") && negb (endsWith text "(")
                && negb (suppressesConnector next)
             then text ++ ", then " else text
         | None => text
         end)
  /\ (forall next, charAt pattern i' = Some next ->
        suppressesConnector next = true ->
        snd (loopBody pattern (i, e)) = text)
  /\ (forall fuel, 2 <= fuel ->
        regexToEnglish fuel (JSStr "a*")
        = Some (Return "literal a (zero or more times)")).
Proof.
  intros Hc i' text.
  assert (Hb : loopBody pattern (i, e)
               = (i', match charAt pattern i' with
                      | Some next =>
                          if negb (endsWith text " ") && negb (endsWith text "(")
                             && negb (suppressesConnector next)
                          then text ++ ", then " else text
                      | None => text
                      end)).
  { rewrite (loopBody_eq pattern i char e Hc); fold i' text.
    unfold connect; rewrite wantsConnector_eq.
    now destruct (charAt pattern i'). }
  split; [exact Hb|split].
  - intros next Hn Hs; rewrite Hb, Hn, Hs; simpl.
    now rewrite !andb_false_r.
  - intros fuel Hf; apply (regexToEnglish_more_fuel 2); [reflexivity|exact Hf].
Qed.

Lemma C8_connector_rule_witness :
  loopBody "ab*" (0, "") = (1, "literal a, then ")
  /\ snd (loopBody "ab*" (1, "literal a, then ")) = "literal a, then literal b"
  /\ regexToEnglish 2 (JSStr "a*") = Some (Return "literal a (zero or more times)").
Proof.
  split; [|split].
  - exact (proj1 (C8_connector_rule "ab*" 0 "a" "" eq_refl)).
  - destruct (C8_connector_rule "ab*" 1 "b" "literal a, then " eq_refl) as (_ & H & _).
    exact (H "*"%char eq_refl eq_refl).
  - destruct (C8_connector_rule "ab*" 0 "a" "" eq_refl) as (_ & _ & H).
    exact (H 2 (le_n 2)).
Defined.

(** C1, on the code: for the compiled pattern with source
    [^\d{3}-\d{2}-\d{4}$] the entry of the table written for it does not
    apply, because its recogniser reads the unescaped [^] and [$] as its own
    anchors and so accepts the text [\d{3}-\d{2}-\d{4}] only; the call
    goes on to the narrator and returns the token-by-token text, and no run
    returns the curated string. *)
Theorem C1_anchored_ssn_not_recognised (flags : string) :
  firstMatch explanations "\d{3}-\d{2}-\d{4}"
  = Some "3 digits - 2 digits - 4 digits (SSN-like pattern)"
  /\ firstMatch explanations "^\d{3}-\d{2}-\d{4}$" = None
  /\ (forall fuel, 19 <= fuel ->
        regexToEnglish fuel (JSRegExp "^\d{3}-\d{2}-\d{4}$" flags)
        = Some (Return ("Start of string/line, digit (exactly 3 times), "
                        ++ "then literal -, then digit (exactly 2 times), "
                        ++ "then literal -, then digit (exactly 4 times)"
                        ++ "end of string/line")))
  /\ ~ (exists fuel,
          regexToEnglish fuel (JSRegExp "^\d{3}-\d{2}-\d{4}$" flags)
          = Some (Return "3 digits - 2 digits - 4 digits (SSN-like pattern)")).
Proof.
  assert (H19 : forall fuel, 19 <= fuel ->
            regexToEnglish fuel (JSRegExp "^\d{3}-\d{2}-\d{4}$" flags)
            = Some (Return ("Start of string/line, digit (exactly 3 times), "
                            ++ "then literal -, then digit (exactly 2 times), "
                            ++ "then literal -, then digit (exactly 4 times)"
                            ++ "end of string/line"))).
  { intros fuel Hf; apply (regexToEnglish_more_fuel 19); [|exact Hf].
    vm_compute; reflexivity. }
  split; [vm_compute; reflexivity|].
  split; [vm_compute; reflexivity|].
  split; [exact H19|].
  intros [fuel H].
  apply (regexToEnglish_more_fuel fuel (Nat.max fuel 19)) in H; [|apply Nat.le_max_l].
  rewrite (H19 (Nat.max fuel 19) (Nat.le_max_r _ _)) in H.
  simpl in H; discriminate.
Qed.

Lemma C1_anchored_ssn_not_recognised_witness :
  regexToEnglish 19 (JSRegExp "^\d{3}-\d{2}-\d{4}$" "")
  = Some (Return ("Start of string/line, digit (exactly 3 times), "
                  ++ "then literal -, then digit (exactly 2 times), "
                  ++ "then literal -, then digit (exactly 4 times)"
                  ++ "end of string/line")).
Proof.
  destruct (C1_anchored_ssn_not_recognised "") as (_ & _ & H & _).
  exact (H 19 (le_n 19)).
Defined.

(** C2, on the code: the span of a character class closes at the first
    [\]] at or behind the opening bracket, whether or not a backslash stands
    before it; for [[a\]b]] the class read is [a\] and the rest of the
    pattern is narrated as literals. *)
Theorem C2_bracket_span_ignores_escapes :
  (forall pattern i k e, charAt pattern i = Some "["%char ->
     indexOf "]" pattern i = Some k ->
     (forall j, i <= j < k -> charAt pattern j <> Some "]"%char)
     /\ loopBody pattern (i, e)
        = (k + 1,
           connect pattern (k + 1)
             (e ++ "character from set: "
                ++ interpretCharacterClass (substring pattern (i + 1) k))))
  /\ indexOf "]" "[a\]b]" 0 = Some 3
  /\ charAt "[a\]b]" 2 = Some "\"%char
  /\ (forall fuel flags, 3 <= fuel ->
        regexToEnglish fuel (JSStr "[a\]b]")
        = Some (Return "character from set: a\, then literal b, then literal ]")
        /\ regexToEnglish fuel (JSRegExp "[a\]b]" flags)
           = Some (Return "character from set: a\, then literal b, then literal ]")).
Proof.
  split; [|split; [reflexivity|split; [reflexivity|]]].
  - intros pattern i k e Hc Hk; split.
    + intros j Hj; exact (indexOf_first _ _ _ _ j Hk Hj).
    + rewrite (loopBody_eq pattern i _ e Hc).
      unfold switchChar; simpl; now rewrite Hk.
  - intros fuel flags Hf; split;
      (apply (regexToEnglish_more_fuel 3); [|exact Hf]); vm_compute; reflexivity.
Qed.

Lemma C2_bracket_span_ignores_escapes_witness :
  loopBody "[a\]b]" (0, "") = (4, "character from set: a\, then ")
  /\ regexToEnglish 3 (JSStr "[a\]b]")
     = Some (Return "character from set: a\, then literal b, then literal ]").
Proof.
  destruct C2_bracket_span_ignores_escapes as (H1 & _ & _ & H4).
  split; [|exact (proj1 (H4 3 "" (le_n 3)))].
  exact (proj2 (H1 "[a\]b]" 0 3 "" eq_refl eq_refl)).
Defined.

(** C3, on the code: six of the seven canonical contents get their phrase;
    ['A-Za-z'] is not among the tests and is rendered by the hyphen rule. *)
Theorem C3_canonical_classes :
  interpretCharacterClass "a-z" = "lowercase letters"
  /\ interpretCharacterClass "A-Z" = "uppercase letters"
  /\ interpretCharacterClass "0-9" = "digits"
  /\ interpretCharacterClass "a-zA-Z" = "letters"
  /\ interpretCharacterClass "a-zA-Z0-9" = "letters and digits"
  /\ interpretCharacterClass "A-Za-z0-9" = "letters and digits"
  /\ interpretCharacterClass "A-Za-z" = "A through z"
  /\ (forall fuel, 1 <= fuel ->
        regexToEnglish fuel (JSStr "[A-Za-z]")
        = Some (Return "character from set: A through z")).
Proof.
  repeat (split; [reflexivity|]).
  intros fuel Hf; apply (regexToEnglish_more_fuel 1); [|exact Hf].
  vm_compute; reflexivity.
Qed.

Lemma C3_canonical_classes_witness :
  regexToEnglish 1 (JSStr "[A-Za-z]")
  = Some (Return "character from set: A through z").
Proof.
  destruct C3_canonical_classes as (_ & _ & _ & _ & _ & _ & _ & H).
  exact (H 1 (le_n 1)).
Defined.

(** * Facts about the normalizer *)

Lemma stripSlashes_false (s : string) :
  stripSlashes false s = stripTrailingSlashFlags s.
Proof. induction s as [|c s IH]; simpl; [reflexivity|now rewrite IH]. Qed.

(** The global replace drops one leading slash, then a trailing slash with
    its flag letters, each on its own. *)
Lemma stripSlashes_true (s : string) :
  stripSlashes true s = stripTrailingSlashFlags (stripLeadingSlash s).
Proof.
  destruct s as [|c s]; [reflexivity|].
  unfold stripLeadingSlash; simpl.
  destruct (c =? "/")%char eqn:E; simpl.
  - apply stripSlashes_false.
  - now rewrite E, stripSlashes_false.
Qed.

Lemma stripTrailing_none (s : string) :
  endsWithSlashFlags s = false -> stripTrailingSlashFlags s = s.
Proof.
  induction s as [|c s IH]; simpl; [reflexivity|].
  intros H; apply orb_false_elim in H as [H1 H2].
  now rewrite H1, (IH H2).
Qed.

Lemma allFlagLetters_slash (a b : string) :
  allFlagLetters (a ++ String "/" b) = false.
Proof.
  induction a as [|c a IH]; simpl; [reflexivity|].
  rewrite IH; apply andb_false_r.
Qed.

Lemma stripTrailing_wrapper (body flags : string) :
  allFlagLetters flags = true ->
  stripTrailingSlashFlags (body ++ String "/" flags) = body.
Proof.
  intros Hf; induction body as [|c body IH]; simpl.
  - now rewrite Hf.
  - now rewrite allFlagLetters_slash, andb_false_r, IH.
Qed.

(** C4, as stated, fails: ["/abc"] has an opening slash but no closing one,
    so it is no complete wrapper, and yet its slash is stripped. *)
Lemma C4_counterexample :
  ~ (forall s, isWrappedLiteral s = false -> normalize (JSStr s) = inl s).
Proof.
  intros H; specialize (H "/abc" eq_refl); vm_compute in H; discriminate.
Qed.

(** C4, amended: the normalizer strips a leading slash and a trailing slash
    followed by letters among g, i, m, u and y, each whenever it is there
    and independently of the other; a string that is not empty, does not
    start with a slash and does not end with such a slash-and-flags suffix
    is passed through unchanged; a complete wrapper loses both ends. *)
Theorem C4_normalizer_strips_each_end (s : string) :
  s <> "" ->
  normalize (JSStr s) = inl (stripTrailingSlashFlags (stripLeadingSlash s))
  /\ (charAt s 0 <> Some "/"%char -> endsWithSlashFlags s = false ->
        normalize (JSStr s) = inl s)
  /\ (forall rest, s = "/" ++ rest -> endsWithSlashFlags rest = false ->
        normalize (JSStr s) = inl rest)
  /\ (forall body flags, s = "/" ++ body ++ "/" ++ flags ->
        allFlagLetters flags = true ->
        normalize (JSStr s) = inl body).
Proof.
  intros Hne.
  assert (Hn : normalize (JSStr s)
               = inl (stripTrailingSlashFlags (stripLeadingSlash s))).
  { unfold normalize; simpl.
    destruct (String.eqb_spec s ""); [contradiction|simpl].
    now rewrite stripSlashes_true. }
  split; [exact Hn|split; [|split]].
  - intros H0 Ht; rewrite Hn; f_equal.
    destruct s as [|c s]; [contradiction|].
    unfold stripLeadingSlash.
    destruct (Ascii.eqb_spec c "/") as [->|_]; [now elim H0|].
    now apply stripTrailing_none.
  - intros rest -> Ht; rewrite Hn; simpl; f_equal.
    now apply stripTrailing_none.
  - intros body flags -> Hf; rewrite Hn; simpl; f_equal.
    now apply stripTrailing_wrapper.
Qed.

Lemma C4_normalizer_strips_each_end_witness :
  normalize (JSStr "a/b") = inl "a/b"
  /\ normalize (JSStr "/a/b") = inl "a/b"
  /\ normalize (JSStr "/a/b/gi") = inl "a/b".
Proof.
  split; [|split].
  - destruct (C4_normalizer_strips_each_end "a/b") as (_ & H & _); [discriminate|].
    apply H; [discriminate|reflexivity].
  - destruct (C4_normalizer_strips_each_end "/a/b") as (_ & _ & H & _); [discriminate|].
    exact (H "a/b" eq_refl eq_refl).
  - destruct (C4_normalizer_strips_each_end "/a/b/gi") as (_ & _ & _ & H); [discriminate|].
    exact (H "a/b" "gi" eq_refl eq_refl).
Defined.

(** * The scan of a pattern that ends with a lone backslash *)

Section TrailingBackslash.

Variable pattern : string.
Variable k : nat.
Hypothesis Hrun : trailingBackslashRun pattern k.
Hypothesis Hodd : Nat.Odd (String.length pattern - k).

Lemma backslash_step (i : nat) (e : string) :
  charAt pattern i = Some "\"%char ->
  loopBody pattern (i, e)
  = (i + 2, connect pattern (i + 2) (e ++ escapePhrase (charAt pattern (i + 1)))).
Proof.
  intros Hc; rewrite (loopBody_eq pattern i _ e Hc).
  unfold switchChar; simpl.
  now replace (i + 1 + 1) with (i + 2) by lia.
Qed.

(** Before the run, an iteration does not jump over the start of the run. *)
Lemma before_run_step (i : nat) (c : ascii) (e : string) :
  i < k -> charAt pattern i = Some c ->
  fst (switchChar pattern i c e) < k.
Proof.
  destruct Hrun as (Hk & Hall & Hprev).
  intros Hi Hc.
  assert (Hspan : forall closing j, closing <> "\"%char ->
                    indexOf closing pattern i = Some j -> j < k).
  { intros closing j Hne Hj.
    apply indexOf_spec in Hj as (_ & Hlt & Hcj).
    destruct (Nat.lt_ge_cases j k) as [|Hge]; [assumption|].
    rewrite (Hall j (conj Hge Hlt)) in Hcj; congruence. }
  unfold switchChar.
  repeat (case_char; [simpl; lia|]).
  case_char.
  { match goal with
    | H : (c =? "\")%char = true |- _ => apply Ascii.eqb_eq in H; subst c
    end; simpl.
    destruct (Nat.eq_dec (S i) k) as [Heq|]; [|lia].
    now elim (Hprev i Heq). }
  case_char.
  { destruct (indexOf "]" pattern i) as [j|] eqn:Hj; simpl; [|lia].
    apply (Hspan "]"%char); [discriminate|exact Hj]. }
  case_char.
  { destruct (indexOf "}" pattern i) as [j|] eqn:Hj; simpl; [|lia].
    apply (Hspan "}"%char); [discriminate|exact Hj]. }
  case_char.
  { destruct (findMatchingParen pattern i); simpl; lia. }
  repeat (case_char; [simpl; lia|]).
  destruct (isAlphaNum c); simpl; lia.
Qed.

(** The iteration on the last position reads past the end. *)
Lemma last_step (e : string) (fuel : nat) :
  whileLoop (S fuel) pattern (String.length pattern - 1, e)
  = Some (e ++ "literal undefined").
Proof.
  destruct Hrun as (Hk & Hall & _).
  rewrite whileLoop_step by (simpl; lia).
  rewrite backslash_step by (apply Hall; lia).
  rewrite whileLoop_done by (simpl; lia); simpl.
  replace (String.length pattern - 1 + 1) with (String.length pattern) by lia.
  rewrite (charAt_ge pattern (String.length pattern)) by lia.
  unfold connect; rewrite wantsConnector_eq.
  rewrite (charAt_ge pattern (String.length pattern - 1 + 2)) by lia.
  reflexivity.
Qed.

(** From a cursor on a pair boundary the scan reaches the last position
    and ends with the fragment of the missing character. *)
Lemma scan_reaches_last (fuel : nat) :
  forall i e, onPair k i -> i < String.length pattern ->
    String.length pattern - i <= fuel ->
    exists e', whileLoop fuel pattern (i, e) = Some (e' ++ "literal undefined").
Proof.
  pose proof Hrun as (Hk & Hall & _).
  induction fuel as [|fuel IH]; intros i e Hp Hi Hf; [lia|].
  destruct (Nat.eq_dec i (String.length pattern - 1)) as [->|Hlast].
  { exists e; apply last_step. }
  rewrite whileLoop_step by exact Hi.
  destruct (Nat.lt_ge_cases i k) as [Hik|Hik].
  - destruct (charAt_lt pattern i Hi) as [c Hc].
    rewrite (loopBody_eq pattern i c e Hc).
    pose proof (before_run_step i c e Hik Hc) as Hb.
    pose proof (switchChar_cursor pattern i c e) as Hge.
    apply IH; [| lia | lia].
    unfold onPair.
    replace (fst (switchChar pattern i c e) + 1 - k) with 0 by lia.
    now exists 0.
  - rewrite backslash_step by (apply Hall; lia).
    unfold onPair in Hp; destruct Hp as [a Ha]; destruct Hodd as [b Hb].
    apply IH; [|lia|lia].
    exists (S a); lia.
Qed.

End TrailingBackslash.

(** * The finalizer keeps a last fragment "literal undefined" *)

Section FinalizerFacts.

Lemma substring_split (s : string) (n : nat) :
  n <= String.length s ->
  s = String.substring 0 n s ++ String.substring n (String.length s - n) s.
Proof.
  revert n; induction s as [|a s IH]; intros n Hn.
  - destruct n; [reflexivity|simpl in Hn; lia].
  - destruct n as [|n]; simpl.
    + f_equal; clear; induction s as [|b s IH]; simpl; [reflexivity|now f_equal].
    + f_equal; apply IH; simpl in Hn; lia.
Qed.

Lemma endsWith_split (s p : string) :
  endsWith s p = true ->
  s = String.substring 0 (String.length s - String.length p) s ++ p.
Proof.
  unfold endsWith; intros H; apply andb_prop in H as [Hle Heq].
  apply Nat.leb_le in Hle; apply String.eqb_eq in Heq.
  rewrite (substring_split s (String.length s - String.length p)) at 1 by lia.
  now replace (String.length s - (String.length s - String.length p))
    with (String.length p) by lia; rewrite Heq.
Qed.

Lemma endsWith_trans (s p q : string) :
  endsWith s p = true -> endsWith p q = true -> endsWith s q = true.
Proof.
  intros Hsp Hpq.
  assert (exists u, p = u ++ q) as [u ->]
    by (eexists; apply endsWith_split; exact Hpq).
  assert (exists t, s = t ++ u ++ q) as [t ->]
    by (eexists; apply endsWith_split; exact Hsp).
  rewrite <- append_assoc; apply endsWith_append.
Qed.

(** A suffix no longer than the last fragment is looked for in it alone. *)
Lemma endsWith_append_r (a b p : string) :
  String.length p <= String.length b -> endsWith (a ++ b) p = endsWith b p.
Proof.
  intros Hp; unfold endsWith; rewrite length_append.
  replace (String.length a + String.length b - String.length p)
    with (String.length a + (String.length b - String.length p)) by lia.
  rewrite substring_append_r.
  replace (String.length p <=? String.length a + String.length b)%nat with true
    by (symmetry; apply Nat.leb_le; lia).
  now replace (String.length p <=? String.length b)%nat with true
    by (symmetry; apply Nat.leb_le; lia).
Qed.

Lemma drop_append (n : nat) (a b : string) :
  n <= String.length a -> drop n (a ++ b) = drop n a ++ b.
Proof.
  revert a; induction n as [|n IH]; intros a Hn; [reflexivity|].
  destruct a as [|c a]; simpl in *; [lia|apply IH; lia].
Qed.

(** The prefix replaced by the finalizer cannot reach into the fragment. *)
Lemma start_prefix_long (e : string) :
  String.prefix "Start of string/line, then " (e ++ "literal undefined") = true ->
  27 <= String.length e.
Proof.
  intros H.
  do 27 (destruct e as [|? e];
         [vm_compute in H; discriminate
         |simpl in H;
          match type of H with
          | (if ?d then _ else _) = true => destruct d; [|discriminate]
          end]).
  simpl; lia.
Qed.

Lemma trimStart_keeps (e : string) :
  exists e', trimStart (e ++ "literal undefined") = e' ++ "literal undefined".
Proof.
  induction e as [|a e [e' IH]]; [now exists ""|].
  simpl; destruct (isWhiteSpace a); [now exists e'|now exists (String a e)].
Qed.

Lemma trimEnd_keeps (e : string) :
  trimEnd (e ++ "literal undefined") = e ++ "literal undefined".
Proof.
  induction e as [|a e IH]; [reflexivity|].
  simpl; rewrite IH; now destruct e.
Qed.

Lemma cleanUp_keeps (e : string) :
  exists e', orFallback (cleanUp (e ++ "literal undefined")) = e' ++ "literal undefined".
Proof.
  unfold cleanUp.
  assert (H1 : replaceSuffix ", then " "" (e ++ "literal undefined") = e ++ "literal undefined").
  { unfold replaceSuffix; now rewrite endsWith_append_r by (simpl; lia). }
  rewrite H1; clear H1.
  assert (H2 : exists e2,
             replacePrefix "Start of string/line, then " "Start of string/line, "
               (e ++ "literal undefined") = e2 ++ "literal undefined").
  { unfold replacePrefix, startsWith.
    destruct (String.prefix _ (e ++ "literal undefined")) eqn:Hp; [|now exists e].
    apply start_prefix_long in Hp.
    exists ("Start of string/line, " ++ drop 27 e).
    rewrite append_assoc; f_equal; now apply drop_append. }
  destruct H2 as [e2 ->].
  assert (H3 : replaceSuffix ", then end of string/line" ", end of string/line"
                 (e2 ++ "literal undefined") = e2 ++ "literal undefined").
  { unfold replaceSuffix.
    destruct (endsWith (e2 ++ "literal undefined") ", then end of string/line") eqn:He;
      [|reflexivity].
    apply (endsWith_trans _ _ "e") in He; [|reflexivity].
    rewrite endsWith_append_r in He by (simpl; lia); discriminate. }
  rewrite H3; clear H3.
  unfold trim; destruct (trimStart_keeps e2) as [e3 ->].
  rewrite trimEnd_keeps; exists e3.
  unfold orFallback; now destruct e3.
Qed.

End FinalizerFacts.

(** C10: when the pattern source ends with a backslash that no earlier
    backslash escapes, the scan reaches that last position, the backslash
    branch looks up the position behind the end, where there is no
    character, and the last fragment appended is "literal undefined"; the
    loop then ends, and the call returns a string instead of throwing; when
    no table entry applies, the string returned ends with that fragment. *)
Theorem C10_trailing_backslash (pattern : string) :
  endsWithLoneBackslash pattern ->
  charAt pattern (String.length pattern - 1) = Some "\"%char
  /\ charAt pattern (String.length pattern) = None
  /\ (forall e, loopBody pattern (String.length pattern - 1, e)
                = (String.length pattern + 1, e ++ "literal undefined"))
  /\ (exists e, forall fuel, String.length pattern <= fuel ->
        whileLoop fuel pattern (0, "") = Some (e ++ "literal undefined"))
  /\ (forall v, normalize v = inl pattern ->
        exists text, forall fuel, String.length pattern <= fuel ->
          regexToEnglish fuel v = Some (Return text))
  /\ (forall v, normalize v = inl pattern ->
        firstMatch explanations pattern = None ->
        exists e, forall fuel, String.length pattern <= fuel ->
          regexToEnglish fuel v = Some (Return (e ++ "literal undefined"))).
Proof.
  intros (k & Hrun & Hodd).
  pose proof Hrun as (Hk & Hall & _).
  split; [apply Hall; lia|].
  split; [apply charAt_ge; lia|].
  destruct (scan_reaches_last pattern k Hrun Hodd (String.length pattern) 0 "")
    as [e0 He0]; [now exists 0|lia|lia|].
  split; [|split; [|split]].
  - intros e; rewrite backslash_step by (apply Hall; lia).
    replace (String.length pattern - 1 + 2) with (String.length pattern + 1) by lia.
    replace (String.length pattern - 1 + 1) with (String.length pattern) by lia.
    rewrite (charAt_ge pattern (String.length pattern)) by lia.
    unfold connect; rewrite wantsConnector_eq.
    now rewrite (charAt_ge pattern (String.length pattern + 1)) by lia.
  - exists e0; intros fuel Hf; exact (whileLoop_more_fuel pattern _ fuel _ _ He0 Hf).
  - intros v Hn; destruct (accepted_returns v pattern Hn) as (text & _ & Ht).
    now exists text.
  - intros v Hn Hm; destruct (cleanUp_keeps e0) as [e He].
    exists e; intros fuel Hf; unfold regexToEnglish, narrate.
    rewrite Hn, Hm, (whileLoop_more_fuel pattern _ fuel _ _ He0 Hf); simpl.
    now rewrite He.
Qed.

Lemma lone_backslash_example : endsWithLoneBackslash "a\".
Proof.
  exists 1; split; [|now exists 0].
  split; [simpl; lia|split].
  - intros j Hj; simpl in Hj; assert (j = 1) as -> by lia; reflexivity.
  - intros j [= ->]; discriminate.
Defined.

Lemma C10_trailing_backslash_witness :
  loopBody "a\" (1, "literal a, then ") = (3, "literal a, then literal undefined")
  /\ exists text, regexToEnglish 2 (JSStr "a\") = Some (Return text).
Proof.
  destruct (C10_trailing_backslash "a\" lone_backslash_example)
    as (_ & _ & H3 & _ & _ & H6).
  split; [exact (H3 "literal a, then ")|].
  destruct (H6 (JSStr "a\") eq_refl eq_refl) as [e He].
  exists (e ++ "literal undefined"); apply He; simpl; lia.
Defined.

(** * Further properties of the source *)

(** ** The parenthesis scanner *)

Lemma length_drop (n : nat) (s : string) :
  String.length (drop n s) = String.length s - n.
Proof.
  revert s; induction n as [|n IH]; intros s; simpl; [lia|].
  destruct s as [|c s]; simpl; [reflexivity|apply IH].
Qed.

Lemma charAt_drop (n j : nat) (s : string) : charAt (drop n s) j = charAt s (n + j).
Proof.
  revert s; induction n as [|n IH]; intros s; simpl; [reflexivity|].
  destruct s as [|c s]; simpl; [now destruct j|apply IH].
Qed.

Lemma drop_length_append (a b : string) : drop (String.length a) (a ++ b) = b.
Proof. induction a as [|c a IH]; simpl; [reflexivity|exact IH]. Qed.

Lemma append_empty_r (s : string) : s ++ "" = s.
Proof. induction s as [|a s IH]; simpl; [reflexivity|now rewrite IH]. Qed.

Lemma charAt_append_r (a b : string) (j : nat) :
  charAt (a ++ b) (String.length a + j) = charAt b j.
Proof. induction a as [|c a IH]; simpl; [reflexivity|exact IH]. Qed.

(** With a positive count the scanner can only stop on a closing
    parenthesis of the text it is given. *)
Lemma findMatchingParenFrom_sound (n : nat) :
  forall rest i count k,
    String.length rest <= n -> (1 <= count)%Z ->
    findMatchingParenFrom rest i count = Some k ->
    i <= k < i + String.length rest /\ charAt rest (k - i) = Some ")"%char.
Proof.
  induction n as [|n IH]; intros rest i count k Hn Hc H.
  - destruct rest; [discriminate|simpl in Hn; lia].
  - destruct rest as [|c rest]; [discriminate|].
    simpl in H, Hn.
    destruct (c =? "\")%char eqn:Eb.
    + destruct rest as [|c' rest]; [discriminate|].
      simpl in Hn.
      destruct (IH rest (i + 2) count k ltac:(lia) Hc H) as [Hk Hg].
      split; [simpl; lia|].
      replace (k - i) with (S (S (k - (i + 2)))) by lia; exact Hg.
    + destruct (Ascii.eqb_spec c ")") as [->|Hne]; simpl in H.
      * destruct (count - 1 =? 0)%Z eqn:Ez.
        -- injection H as <-; split; [simpl; lia|].
           now replace (i - i) with 0 by lia.
        -- destruct (IH rest (i + 1) (count - 1)%Z k ltac:(lia)
                       ltac:(apply Z.eqb_neq in Ez; lia) H) as [Hk Hg].
           split; [simpl; lia|].
           replace (k - i) with (S (k - (i + 1))) by lia; exact Hg.
      * set (count1 := if (c =? "(")%char then (count + 1)%Z else count) in H.
        assert (1 <= count1)%Z by (unfold count1; destruct (c =? "(")%char; lia).
        destruct (count1 =? 0)%Z eqn:Ez; [apply Z.eqb_eq in Ez; lia|].
        destruct (IH rest (i + 1) count1 k ltac:(lia) ltac:(lia) H) as [Hk Hg].
        split; [simpl; lia|].
        replace (k - i) with (S (k - (i + 1))) by lia; exact Hg.
Qed.

(** Over a body whose parentheses nest properly the scanner's count
    follows the nesting depth and never reaches zero. *)
Lemma findMatchingParenFrom_skip (n : nat) :
  forall body rest i base d d',
    String.length body <= n -> (1 <= base)%Z -> parenDepth body d = Some d' ->
    findMatchingParenFrom (body ++ rest) i (base + Z.of_nat d)
    = findMatchingParenFrom rest (i + String.length body) (base + Z.of_nat d').
Proof.
  induction n as [|n IH]; intros body rest i base d d' Hn Hb Hp.
  - destruct body; [|simpl in Hn; lia].
    injection Hp as <-; simpl; f_equal; lia.
  - destruct body as [|c body]; [injection Hp as <-; simpl; f_equal; lia|].
    simpl in Hp, Hn |- *.
    destruct (c =? "\")%char eqn:Eb.
    + destruct body as [|c' body]; [discriminate|].
      simpl in Hn |- *.
      rewrite (IH body rest (i + 2) base d d') by (lia || assumption).
      f_equal; lia.
    + destruct (c =? "(")%char eqn:Eo.
      * apply Ascii.eqb_eq in Eo; subst c; simpl.
        destruct (Z.eqb_spec (base + Z.of_nat d + 1) 0) as [|_]; [lia|].
        replace (base + Z.of_nat d + 1)%Z with (base + Z.of_nat (S d))%Z by lia.
        rewrite (IH body rest (i + 1) base (S d) d') by (lia || assumption).
        f_equal; lia.
      * destruct (c =? ")")%char eqn:Ec.
        -- destruct d as [|d]; [discriminate|].
           destruct (Z.eqb_spec (base + Z.of_nat (S d) - 1) 0) as [|_]; [lia|].
           replace (base + Z.of_nat (S d) - 1)%Z with (base + Z.of_nat d)%Z by lia.
           rewrite (IH body rest (i + 1) base d d') by (lia || assumption).
           f_equal; lia.
        -- destruct (Z.eqb_spec (base + Z.of_nat d) 0) as [|_]; [lia|].
           rewrite (IH body rest (i + 1) base d d') by (lia || assumption).
           f_equal; lia.
Qed.

(** X1: an answer of [findMatchingParen] lies strictly behind [start],
    inside the pattern, and holds a closing parenthesis; when no closing
    parenthesis stands behind [start] the answer is "not found". *)
Theorem X1_findMatchingParen_sound (pattern : string) (start : nat) :
  (forall k, findMatchingParen pattern start = Some k ->
     start < k < String.length pattern /\ charAt pattern k = Some ")"%char)
  /\ (includes ")" (drop (start + 1) pattern) = false ->
      findMatchingParen pattern start = None).
Proof.
  assert (Hs : forall k, findMatchingParen pattern start = Some k ->
                 start < k < String.length pattern
                 /\ charAt pattern k = Some ")"%char).
  { intros k H; unfold findMatchingParen in H.
    apply (findMatchingParenFrom_sound _ _ _ _ _ (le_n _)) in H as [Hk Hg]; [|lia].
    rewrite length_drop in Hk; rewrite charAt_drop in Hg.
    split; [lia|].
    now replace (start + 1 + (k - (start + 1))) with k in Hg by lia. }
  split; [exact Hs|].
  intros Hn; destruct (findMatchingParen pattern start) as [k|] eqn:E; [|reflexivity].
  destruct (Hs k eq_refl) as [Hk Hg].
  assert (Hin : forall s j, charAt s j = Some ")"%char -> includes ")" s = true).
  { induction s as [|a s IH]; intros j Hj; [discriminate|].
    destruct j as [|j]; simpl in *.
    - injection Hj as ->; reflexivity.
    - rewrite (IH j Hj); apply orb_true_r. }
  rewrite (Hin (drop (start + 1) pattern) (k - (start + 1))) in Hn; [discriminate|].
  rewrite charAt_drop; now replace (start + 1 + (k - (start + 1))) with k by lia.
Qed.

Lemma X1_findMatchingParen_sound_witness :
  (1 < 5 < String.length "a(b\)c)d" /\ charAt "a(b\)c)d" 6 = Some ")"%char)
  /\ findMatchingParen "(abc" 0 = None.
Proof.
  split.
  - destruct (X1_findMatchingParen_sound "a(b\)c)d" 1) as [H _].
    destruct (H 6 eq_refl) as [Hk Hc].
    split; [simpl in *; lia|exact Hc].
  - destruct (X1_findMatchingParen_sound "(abc" 0) as [_ H].
    apply H; reflexivity.
Defined.

(** X2: in a pattern [pre ( body ) post] whose body has properly nested
    parentheses, escape pairs not counted, the scanner started on the
    opening parenthesis answers the position of the matching closing one,
    and the narrator opens a group there with no connector behind the
    marker; when the pattern ends behind such a body, or behind a body that
    leaves groups open, the scanner answers "not found" and the parenthesis
    is narrated as a literal. *)
Theorem X2_group_with_nested_body (pre body post : string) (e : string) :
  (parenDepth body 0 = Some 0 ->
   let pattern := pre ++ "(" ++ body ++ ")" ++ post in
   findMatchingParen pattern (String.length pre)
   = Some (String.length pre + 1 + String.length body)
   /\ loopBody pattern (String.length pre, e)
      = (String.length pre + 1, e ++ "group: ("))
  /\ (forall d, parenDepth body 0 = Some d ->
       let pattern := pre ++ "(" ++ body in
       findMatchingParen pattern (String.length pre) = None
       /\ loopBody pattern (String.length pre, e)
          = (String.length pre + 1, e ++ "literal (")).
Proof.
  assert (Hd : forall x, drop (String.length pre + 1) (pre ++ "(" ++ x) = x).
  { intros x; replace (String.length pre + 1) with (String.length (pre ++ "("))
      by (rewrite length_append; reflexivity).
    rewrite <- append_assoc; apply drop_length_append. }
  assert (Hstep : forall pattern marker,
             charAt pattern (String.length pre) = Some "("%char ->
             endsWith (e ++ marker) "(" = true ->
             connect pattern (String.length pre + 1) (e ++ marker) = e ++ marker).
  { intros pattern marker _ He; unfold connect; rewrite wantsConnector_eq, He.
    destruct (charAt pattern (String.length pre + 1)); simpl;
      rewrite ?andb_false_r; reflexivity. }
  assert (Hc : forall x, charAt (pre ++ "(" ++ x) (String.length pre) = Some "("%char).
  { intros x; replace (String.length pre) with (String.length pre + 0) at 1 by lia.
    now rewrite charAt_append_r. }
  split.
  - intros Hp pattern.
    assert (Hf : findMatchingParen pattern (String.length pre)
                 = Some (String.length pre + 1 + String.length body)).
    { unfold findMatchingParen, pattern; rewrite Hd.
      change 1%Z with (1 + Z.of_nat 0)%Z.
      rewrite (findMatchingParenFrom_skip _ body _ _ 1 0 0 (le_n _)) by (lia || assumption).
      reflexivity. }
    split; [exact Hf|].
    rewrite (loopBody_eq pattern _ _ e (Hc _)).
    unfold switchChar; simpl; rewrite Hf; simpl.
    f_equal; apply Hstep; [apply Hc|].
    apply (endsWith_trans _ "group: ("); [apply endsWith_append|reflexivity].
  - intros d Hp pattern.
    assert (Hf : findMatchingParen pattern (String.length pre) = None).
    { unfold findMatchingParen, pattern; rewrite Hd.
      rewrite <- (append_empty_r body).
      change 1%Z with (1 + Z.of_nat 0)%Z.
      rewrite (findMatchingParenFrom_skip _ body _ _ 1 0 d (le_n _)) by (lia || assumption).
      reflexivity. }
    split; [exact Hf|].
    rewrite (loopBody_eq pattern _ _ e (Hc _)).
    unfold switchChar; simpl; rewrite Hf; simpl.
    f_equal; apply Hstep; [apply Hc|].
    apply (endsWith_trans _ "literal ("); [apply endsWith_append|reflexivity].
Qed.

Lemma X2_group_with_nested_body_witness :
  findMatchingParen "x(a\)(b|c))+" 1 = Some 10
  /\ loopBody "x(a\)(b|c))+" (1, "literal x, then ")
     = (2, "literal x, then group: (")
  /\ findMatchingParen "x(a(b)" 1 = None.
Proof.
  destruct (X2_group_with_nested_body "x" "a\)(b|c)" "+" "literal x, then ")
    as [H _].
  destruct (H eq_refl) as [H1 H2].
  destruct (X2_group_with_nested_body "x" "a(b)" "" "") as [_ H'].
  destruct (H' 0 eq_refl) as [H3 _].
  split; [exact H1|split; [exact H2|exact H3]].
Defined.

(** ** The special-case table *)

Lemma matchRe_spec (r : re) (input : string) :
  forall pos q, In q (matchRe r input pos) <-> matchesAt r input pos q.
Proof.
  induction r as [| |s|r IH|r1 IH1 r2 IH2]; intros pos q; simpl.
  - destruct (Nat.eqb_spec pos 0); simpl; intuition lia.
  - destruct (Nat.eqb_spec pos (String.length input)); simpl; intuition lia.
  - destruct (String.eqb_spec (String.substring pos (String.length s) input) s);
      simpl; intuition lia.
  - rewrite in_app_iff, IH; simpl; intuition lia.
  - rewrite in_flat_map; split.
    + intros (m & Hm & Hq); exists m; now rewrite <- IH1, <- IH2.
    + intros (m & Hm & Hq); exists m; now rewrite IH1, IH2.
Qed.

Lemma test_spec (r : re) (input : string) :
  test r input = true
  <-> exists pos q, pos <= String.length input /\ matchesAt r input pos q.
Proof.
  unfold test; rewrite existsb_exists; split.
  - intros (pos & Hin & Hm); apply in_seq in Hin.
    destruct (matchRe r input pos) as [|q l] eqn:E; [discriminate|].
    exists pos, q; split; [lia|].
    apply matchRe_spec; rewrite E; now left.
  - intros (pos & q & Hpos & Hm); exists pos; split; [apply in_seq; lia|].
    apply matchRe_spec in Hm.
    destruct (matchRe r input pos); [contradiction|reflexivity].
Qed.

Lemma substring_prefix (s rest : string) :
  String.substring 0 (String.length s) (s ++ rest) = s.
Proof. induction s as [|a s IH]; simpl; [now destruct rest|now rewrite IH]. Qed.

Lemma substring_prefix_inv (s p : string) :
  String.substring 0 (String.length s) p = s -> exists rest, p = s ++ rest.
Proof.
  revert p; induction s as [|a s IH]; intros p H; [now exists p|].
  destruct p as [|c p]; [discriminate|].
  simpl in H; injection H as -> H.
  destruct (IH p H) as [rest ->]; now exists rest.
Qed.

(** A literal found right behind [a] in [a ++ r] is a prefix of [r]. *)
Lemma lit_behind (a r s : string) (n : nat) :
  n = String.length a ->
  String.substring n (String.length s) (a ++ r) = s -> exists r', r = s ++ r'.
Proof.
  intros -> H; apply substring_prefix_inv.
  now rewrite <- (substring_append_r a r 0), Nat.add_0_r.
Qed.

Lemma length_zero (s : string) : String.length s = 0 -> s = "".
Proof. now destruct s. Qed.

(** An entry [/^text$/] accepts [text] only; an entry [/^text/] accepts
    the sources that start with [text]. *)
Lemma test_exact (s p : string) : test (seqRe [Bol; Lit s; Eol]) p = true <-> p = s.
Proof.
  rewrite test_spec; simpl; split.
  - intros (pos & q & _ & m & [-> ->] & m' & [Hs ->] & Hl & _).
    destruct (substring_prefix_inv s p Hs) as [rest ->].
    rewrite length_append in Hl; simpl in Hl.
    rewrite (length_zero rest) by lia; apply append_empty_r.
  - intros ->; exists 0, (String.length s); split; [lia|].
    exists 0; split; [now split|].
    exists (String.length s); repeat split.
    rewrite <- (append_empty_r s) at 2; apply substring_prefix.
Qed.

Lemma test_start (s p : string) :
  test (seqRe [Bol; Lit s]) p = true <-> exists rest, p = s ++ rest.
Proof.
  rewrite test_spec; simpl; split.
  - intros (pos & q & _ & m & [-> ->] & Hs & _).
    exact (substring_prefix_inv s p Hs).
  - intros [rest ->]; exists 0, (String.length s); split; [lia|].
    exists 0; split; [now split|]; split; [apply substring_prefix|reflexivity].
Qed.

(** The third entry accepts two sources, both ending in a dollar sign. *)
Lemma test_zip (p : string) :
  test (seqRe [Bol; Lit "\d{5}"; Opt (Lit "-\d{4}"); Lit "$"; Eol]) p = true
  <-> p = "\d{5}$" \/ p = "\d{5}-\d{4}$".
Proof.
  split.
  - rewrite test_spec; simpl.
    intros (pos & q & _ & m & [-> ->] & m1 & [Ha ->] & m2 & Hopt
            & m3 & [Hc ->] & Hl & _).
    destruct (substring_prefix_inv "\d{5}" p Ha) as [r1 ->].
    destruct Hopt as [[Hb ->]| ->].
    + right.
      destruct (lit_behind "\d{5}" r1 "-\d{4}" _ eq_refl Hb) as [r2 ->].
      destruct (lit_behind "\d{5}-\d{4}" r2 "$" _ eq_refl Hc) as [r3 ->].
      simpl in Hl; rewrite (length_zero r3) by lia; reflexivity.
    + left.
      destruct (lit_behind "\d{5}" r1 "$" _ eq_refl Hc) as [r2 ->].
      simpl in Hl; rewrite (length_zero r2) by lia; reflexivity.
  - intros [-> | ->]; reflexivity.
Qed.

(** X3: the table answers exactly for the four literal sources
    [\b[A-Za-z0-9._%-+]+@[A-Za-z0-9.-]+\.[A-Z|a-z]{2,}\b],
    [\d{3}-\d{2}-\d{4}], [\d{5}$] or [\d{5}-\d{4}$], and
    [\d{4}[\s-]?\d{4}[\s-]?\d{4}[\s-]?\d{4}], and for every source that
    starts with [https?:], whatever follows; every other source goes to the
    narrator. *)
Theorem X3_table_characterised (pattern e : string) :
  firstMatch explanations pattern = Some e
  <-> (pattern = "\b[A-Za-z0-9._%-+]+@[A-Za-z0-9.-]+\.[A-Z|a-z]{2,}\b"
       /\ e = "Email address pattern")
      \/ (pattern = "\d{3}-\d{2}-\d{4}"
          /\ e = "3 digits - 2 digits - 4 digits (SSN-like pattern)")
      \/ ((pattern = "\d{5}$" \/ pattern = "\d{5}-\d{4}$")
          /\ e = "5 digits optionally followed by dash and 4 more digits (ZIP code)")
      \/ (pattern = "\d{4}[\s-]?\d{4}[\s-]?\d{4}[\s-]?\d{4}"
          /\ e = "Credit card number (4 groups of 4 digits with optional separators)")
      \/ ((exists rest, pattern = "https?:" ++ rest)
          /\ e = "URL starting with http or https").
Proof.
  unfold explanations; cbn [firstMatch].
  split.
  - repeat match goal with
           | |- context [if test ?r ?p then _ else _] =>
               let E := fresh "E" in
               destruct (test r p) eqn:E;
                 [first [apply test_exact in E | apply test_zip in E
                        | apply test_start in E];
                  intros [= <-]; tauto|]
           end.
    discriminate.
  - intros [[-> ->]|[[-> ->]|[[[-> | ->] ->]|[[-> ->]|[[rest ->] ->]]]]];
      try reflexivity.
    repeat match goal with
           | |- context [if test ?r ?p then _ else _] =>
               let E := fresh "E" in
               destruct (test r p) eqn:E;
                 [first [apply test_exact in E; discriminate
                        | apply test_zip in E; destruct E; discriminate
                        | reflexivity]|]
           end.
    assert (H : test (seqRe [Bol; Lit "https?:"]) ("https?:" ++ rest) = true)
      by (apply test_start; now exists rest).
    cbn [seqRe] in *; congruence.
Qed.

Lemma X3_table_characterised_witness :
  firstMatch explanations "https?://[a-z]+\.com" = Some "URL starting with http or https"
  /\ firstMatch explanations "\d{5}(-\d{4})?" = None.
Proof.
  split.
  - apply X3_table_characterised; do 4 right.
    split; [now exists "//[a-z]+\.com"|reflexivity].
  - destruct (firstMatch explanations "\d{5}(-\d{4})?") as [e|] eqn:E; [|reflexivity].
    apply X3_table_characterised in E.
    destruct E as [[H _]|[[H _]|[[[H|H] _]|[[H _]|[[rest H] _]]]]]; discriminate.
Defined.

(** ** Splitting, character classes and brace quantifiers *)

Lemma split_nonempty (c : ascii) (s : string) : split c s <> [].
Proof.
  destruct s as [|a s]; simpl; [discriminate|].
  destruct (a =? c)%char; [discriminate|].
  destruct (split c s); discriminate.
Qed.

Lemma split_none (c : ascii) (s : string) : includes c s = false -> split c s = [s].
Proof.
  induction s as [|a s IH]; simpl; [reflexivity|].
  intros H; apply orb_false_elim in H as [Ha Hs].
  now rewrite Ha, (IH Hs).
Qed.

(** The first part is the text before the first separator. *)
Lemma split_cons (c : ascii) (x r : string) :
  includes c x = false -> split c (x ++ String c r) = x :: split c r.
Proof.
  induction x as [|a x IH]; simpl.
  - intros _; now rewrite Ascii.eqb_refl.
  - intros H; apply orb_false_elim in H as [Ha Hx].
    now rewrite Ha, (IH Hx).
Qed.

(** The last part is the text behind the last separator. *)
Lemma split_snoc (c : ascii) (m y : string) :
  includes c y = false -> split c (m ++ String c y) = (split c m ++ [y])%list.
Proof.
  intros Hy; induction m as [|a m IH]; simpl.
  - now rewrite Ascii.eqb_refl, (split_none c y Hy).
  - rewrite IH; destruct (a =? c)%char; [reflexivity|].
    pose proof (split_nonempty c m).
    destruct (split c m) as [|p ps]; [contradiction|reflexivity].
Qed.

Lemma includes_append (c : ascii) (a b : string) :
  includes c (a ++ b) = includes c a || includes c b.
Proof.
  induction a as [|x a IH]; simpl; [reflexivity|].
  now rewrite IH, orb_assoc.
Qed.

Lemma nth_error_last_snoc (l : list string) (y : string) :
  nth_error (l ++ [y])%list (List.length (l ++ [y])%list - 1) = Some y.
Proof.
  rewrite length_app; simpl.
  replace (List.length l + 1 - 1) with (List.length l + 0) by lia.
  now rewrite nth_error_app2, Nat.add_comm, Nat.add_sub by lia.
Qed.

(** X4: a bracket content without hyphen is rendered verbatim (so a
    leading [^] is passed through as text); a content with a hyphen that is
    none of the six canonical ones is rendered from the text before its
    first hyphen and the text behind its last hyphen, whatever stands
    between them. *)
Theorem X4_character_class_rendering (charClass : string) :
  (includes "-" charClass = false -> interpretCharacterClass charClass = charClass)
  /\ (forall x r m y,
        isCanonicalClass charClass = false ->
        charClass = x ++ "-" ++ r -> includes "-" x = false ->
        charClass = m ++ "-" ++ y -> includes "-" y = false ->
        interpretCharacterClass charClass = x ++ " through " ++ y).
Proof.
  split.
  - intros H; unfold interpretCharacterClass.
    repeat match goal with
           | |- context [if String.eqb charClass ?s then _ else _] =>
               destruct (String.eqb_spec charClass s); [subst; discriminate|]
           end.
    now rewrite H.
  - intros x r m y Hc Hx Hxn Hm Hyn; unfold interpretCharacterClass.
    unfold isCanonicalClass in Hc.
    repeat (apply orb_false_elim in Hc as [Hc ?]).
    repeat match goal with
           | H : String.eqb charClass ?s = false |- _ => rewrite H; clear H
           end.
    assert (Hi : includes "-" charClass = true).
    { rewrite Hx, includes_append; simpl; apply orb_true_r. }
    rewrite Hi.
    assert (H0 : nth_error (split "-" charClass) 0 = Some x)
      by (rewrite Hx; simpl append; now rewrite split_cons).
    rewrite H0; clear H0.
    rewrite Hm; simpl append; rewrite split_snoc by assumption.
    now rewrite nth_error_last_snoc.
Qed.

Lemma X4_character_class_rendering_witness :
  interpretCharacterClass "^abc" = "^abc"
  /\ interpretCharacterClass "a-fA-F0-9" = "a through 9".
Proof.
  split.
  - exact (proj1 (X4_character_class_rendering "^abc") eq_refl).
  - exact (proj2 (X4_character_class_rendering "a-fA-F0-9")
             "a" "fA-F0-9" "a-fA-F0" "9" eq_refl eq_refl eq_refl eq_refl eq_refl).
Defined.

(** X5: a brace body [min,max] is rendered "min to max times", a body
    [min,] "min or more times", and whatever follows a second comma is
    ignored; a body without comma is rendered "exactly ... times", whatever
    it holds. *)
Theorem X5_brace_quantifier_rendering (min max tail : string) :
  includes "," min = false -> includes "," max = false ->
  quantifierPhrase (min ++ "," ++ max)
  = (if max =? "" then " (" ++ min ++ " or more times)"
     else " (" ++ min ++ " to " ++ max ++ " times)")
  /\ quantifierPhrase (min ++ "," ++ max ++ "," ++ tail)
     = quantifierPhrase (min ++ "," ++ max)
  /\ quantifierPhrase min = " (exactly " ++ min ++ " times)".
Proof.
  intros Hmin Hmax.
  assert (H1 : quantifierPhrase (min ++ "," ++ max)
               = (if max =? "" then " (" ++ min ++ " or more times)"
                  else " (" ++ min ++ " to " ++ max ++ " times)")).
  { unfold quantifierPhrase.
    rewrite includes_append; simpl includes; rewrite orb_true_r.
    simpl append; rewrite split_cons, (split_none _ max) by assumption.
    now destruct max. }
  split; [exact H1|split].
  - rewrite H1; unfold quantifierPhrase.
    rewrite includes_append; simpl includes; rewrite orb_true_r.
    simpl append; rewrite split_cons by assumption.
    rewrite split_cons by assumption.
    now destruct max.
  - unfold quantifierPhrase; now rewrite Hmin.
Qed.

Lemma X5_brace_quantifier_rendering_witness :
  quantifierPhrase "2,5" = " (2 to 5 times)"
  /\ quantifierPhrase "3," = " (3 or more times)"
  /\ quantifierPhrase "1,2,3" = " (1 to 2 times)"
  /\ quantifierPhrase "" = " (exactly  times)".
Proof.
  destruct (X5_brace_quantifier_rendering "2" "5" "" eq_refl eq_refl) as (H1 & _ & _).
  destruct (X5_brace_quantifier_rendering "3" "" "" eq_refl eq_refl) as (H2 & _ & _).
  destruct (X5_brace_quantifier_rendering "1" "2" "3" eq_refl eq_refl) as (H3 & H4 & _).
  destruct (X5_brace_quantifier_rendering "" "" "" eq_refl eq_refl) as (_ & _ & H5).
  split; [exact H1|split; [exact H2|split; [|exact H5]]].
  exact (eq_trans H4 H3).
Defined.

(** ** Bracket and brace spans *)

Lemma indexOf_append_r (c : ascii) (pre x : string) :
  indexOf c (pre ++ x) (String.length pre)
  = option_map (fun k => String.length pre + k) (indexOf c x 0).
Proof.
  induction pre as [|a pre IH]; simpl.
  - now destruct (indexOf c x 0).
  - rewrite IH; now destruct (indexOf c x 0).
Qed.

Lemma indexOf_behind (c : ascii) (a post : string) :
  includes c a = false -> indexOf c (a ++ String c post) 0 = Some (String.length a).
Proof.
  induction a as [|x a IH]; simpl.
  - intros _; now rewrite Ascii.eqb_refl.
  - intros H; apply orb_false_elim in H as [Hx Ha].
    now rewrite Hx, (IH Ha).
Qed.

(** The span found behind an opening character and the text cut out of it. *)
Lemma span_found (pre inner post : string) (opening closing : ascii) :
  (opening =? closing)%char = false -> includes closing inner = false ->
  let pattern := pre ++ String opening (inner ++ String closing post) in
  charAt pattern (String.length pre) = Some opening
  /\ indexOf closing pattern (String.length pre)
     = Some (String.length pre + 1 + String.length inner)
  /\ substring pattern (String.length pre + 1)
       (String.length pre + 1 + String.length inner) = inner.
Proof.
  intros Hoc Hin pattern; unfold pattern; split; [|split].
  - replace (String.length pre) with (String.length pre + 0) at 1 by lia.
    now rewrite charAt_append_r.
  - rewrite indexOf_append_r.
    change (String opening (inner ++ String closing post))
      with (String opening inner ++ String closing post).
    rewrite indexOf_behind by (simpl; now rewrite Hoc, Hin).
    simpl; f_equal; lia.
  - unfold substring.
    replace (String.length pre + 1 + String.length inner - (String.length pre + 1))
      with (String.length inner) by lia.
    rewrite substring_append_r; simpl.
    apply substring_prefix.
Qed.

(** X6: in [pre [ inner ] post] with no [\]] in [inner], the iteration on
    the bracket reads exactly [inner] as the class, appends its phrase and
    moves the cursor behind the closing bracket; in [pre { inner } post]
    with no [}] in [inner] it appends the quantifier phrase of [inner] in
    the same way, whatever stands before the brace. *)
Theorem X6_span_is_read_whole (pre inner post e : string) :
  (includes "]" inner = false ->
   let pattern := pre ++ "[" ++ inner ++ "]" ++ post in
   let i' := String.length pre + String.length inner + 2 in
   loopBody pattern (String.length pre, e)
   = (i', connect pattern i'
            (e ++ "character from set: " ++ interpretCharacterClass inner)))
  /\ (includes "}" inner = false ->
      let pattern := pre ++ "{" ++ inner ++ "}" ++ post in
      let i' := String.length pre + String.length inner + 2 in
      loopBody pattern (String.length pre, e)
      = (i', connect pattern i' (e ++ quantifierPhrase inner))).
Proof.
  split; intros Hin pattern i'.
  - destruct (span_found pre inner post "[" "]" eq_refl Hin) as (Hc & Hk & Hs).
    change (pre ++ String "[" (inner ++ String "]" post)) with pattern in Hc, Hk, Hs.
    clearbody pattern.
    rewrite (loopBody_eq pattern _ _ e Hc).
    unfold switchChar; simpl; rewrite Hk, Hs; simpl.
    now replace (String.length pre + 1 + String.length inner + 1) with i'
      by (unfold i'; lia).
  - destruct (span_found pre inner post "{" "}" eq_refl Hin) as (Hc & Hk & Hs).
    change (pre ++ String "{" (inner ++ String "}" post)) with pattern in Hc, Hk, Hs.
    clearbody pattern.
    rewrite (loopBody_eq pattern _ _ e Hc).
    unfold switchChar; simpl; rewrite Hk, Hs; simpl.
    now replace (String.length pre + 1 + String.length inner + 1) with i'
      by (unfold i'; lia).
Qed.

Lemma X6_span_is_read_whole_witness :
  loopBody "x[a-f]{2,}y" (1, "literal x, then ")
  = (6, "literal x, then character from set: a through f")
  /\ loopBody "x[a-f]{2,}y" (6, "S")
     = (10, "S (2 or more times), then ").
Proof.
  split.
  - exact (proj1 (X6_span_is_read_whole "x" "a-f" "{2,}y" "literal x, then ") eq_refl).
  - exact (proj2 (X6_span_is_read_whole "x[a-f]" "2," "y" "S") eq_refl).
Defined.

(** ** Patterns made of letters and digits *)

Lemma alnum_neq (c d : ascii) :
  isAlphaNum c = true -> isAlphaNum d = false -> (c =? d)%char = false.
Proof.
  intros Hc Hd; destruct (Ascii.eqb_spec c d) as [->|]; [congruence|reflexivity].
Qed.

Lemma alnum_not_white (c : ascii) : isAlphaNum c = true -> isWhiteSpace c = false.
Proof.
  destruct c as [[] [] [] [] [] [] [] []]; vm_compute; intros H;
    (reflexivity || discriminate).
Qed.

(** A letter or digit falls through every case of the [switch]. *)
Lemma switchChar_alnum (pattern : string) (i : nat) (c : ascii) (e : string) :
  isAlphaNum c = true ->
  switchChar pattern i c e = (i, e ++ "literal " ++ String c EmptyString).
Proof.
  intros H; unfold switchChar.
  repeat rewrite (alnum_neq c) by (assumption || reflexivity).
  now rewrite H.
Qed.

Lemma literal_no_space (e : string) (c : ascii) :
  isAlphaNum c = true ->
  endsWith (e ++ "literal " ++ String c EmptyString) " " = false
  /\ endsWith (e ++ "literal " ++ String c EmptyString) "(" = false.
Proof.
  intros H; rewrite !endsWith_append_r by (simpl; lia).
  unfold endsWith; simpl.
  now rewrite !(alnum_neq c) by (assumption || reflexivity).
Qed.

Lemma alnum_not_suppressed (c : ascii) :
  isAlphaNum c = true -> suppressesConnector c = false.
Proof.
  intros H; unfold suppressesConnector.
  now repeat rewrite (alnum_neq c) by (assumption || reflexivity).
Qed.

(** The scan of a run of letters and digits: one literal per character,
    the connector between them, and the usual connector decision behind the
    last one. *)
Lemma scan_literals (body : string) :
  forall pre post e fuel pattern,
    pattern = pre ++ body ++ post ->
    allAlphaNum body = true -> body <> "" ->
    whileLoop (String.length body + fuel) pattern (String.length pre, e)
    = whileLoop fuel pattern
        (String.length pre + String.length body,
         connect pattern (String.length pre + String.length body)
           (e ++ literals body)).
Proof.
  induction body as [|c body IH]; intros pre post e fuel pattern Hp Ha Hne;
    [contradiction|].
  simpl in Ha; apply andb_prop in Ha as [Hc Ha].
  assert (Hat : charAt pattern (String.length pre) = Some c).
  { rewrite Hp; replace (String.length pre) with (String.length pre + 0) at 1 by lia.
    now rewrite charAt_append_r. }
  change (String.length (String c body) + fuel) with (S (String.length body + fuel)).
  rewrite whileLoop_step by (simpl; apply (charAt_some _ _ _ Hat)).
  rewrite (loopBody_eq pattern _ _ e Hat), switchChar_alnum by exact Hc.
  cbn [fst snd].
  destruct body as [|c' body'].
  - reflexivity.
  - assert (Hp' : pattern = (pre ++ String c "") ++ String c' body' ++ post)
      by (rewrite Hp, append_assoc; reflexivity).
    assert (Hl : String.length (pre ++ String c "") = String.length pre + 1)
      by (rewrite length_append; reflexivity).
    pose proof Ha as Ha'; simpl in Ha'; apply andb_prop in Ha' as [Hc' _].
    assert (Hn : charAt pattern (String.length pre + 1) = Some c').
    { rewrite Hp', <- Hl.
      replace (String.length (pre ++ String c ""))
        with (String.length (pre ++ String c "") + 0) at 1 by lia.
      now rewrite charAt_append_r. }
    destruct (literal_no_space e c Hc) as [Hs1 Hs2].
    unfold connect at 1; rewrite wantsConnector_eq, Hn, Hs1, Hs2,
      (alnum_not_suppressed c' Hc'); cbn [negb andb].
    rewrite <- Hl, (IH (pre ++ String c "") post _ fuel pattern Hp' Ha)
      by discriminate.
    rewrite Hl; f_equal; f_equal; [simpl; lia|].
    replace (String.length pre + 1 + String.length (String c' body'))
      with (String.length pre + String.length (String c (String c' body')))
      by (simpl; lia).
    f_equal.
    change (literals (String c (String c' body')))
      with ("literal " ++ String c "" ++ ", then " ++ literals (String c' body')).
    now rewrite !append_assoc.
Qed.

Lemma alnum_no_entry (s : string) :
  allAlphaNum s = true -> firstMatch explanations s = None.
Proof.
  intros H; unfold explanations; cbn [firstMatch].
  repeat match goal with
         | |- context [if test ?r ?p then _ else _] =>
             let E := fresh "E" in
             destruct (test r p) eqn:E;
               [first [apply test_exact in E | apply test_zip in E; destruct E
                      | apply test_start in E; destruct E as [rest E]];
                subst s; vm_compute in H; discriminate|]
         end.
  reflexivity.
Qed.

Lemma caret_no_entry (x : string) : firstMatch explanations ("^" ++ x) = None.
Proof.
  unfold explanations; cbn [firstMatch].
  repeat match goal with
         | |- context [if test ?r ?p then _ else _] =>
             let E := fresh "E" in
             destruct (test r p) eqn:E;
               [first [apply test_exact in E | apply test_zip in E; destruct E
                      | apply test_start in E; destruct E as [rest E]];
                discriminate|]
         end.
  reflexivity.
Qed.

(** The end and the start of the literals of a run of letters and digits. *)
Lemma literals_end (s : string) :
  allAlphaNum s = true -> s <> "" ->
  exists x c, literals s = x ++ "literal " ++ String c EmptyString
              /\ isAlphaNum c = true.
Proof.
  induction s as [|c s IH]; intros Ha Hne; [contradiction|].
  simpl in Ha; apply andb_prop in Ha as [Hc Ha].
  destruct s as [|c' s'].
  - now exists "", c.
  - destruct (IH Ha ltac:(discriminate)) as (x & d & Hx & Hd).
    exists ("literal " ++ String c "" ++ ", then " ++ x), d; split; [|exact Hd].
    change (literals (String c (String c' s')))
      with ("literal " ++ String c "" ++ ", then " ++ literals (String c' s')).
    now rewrite Hx, !append_assoc.
Qed.

Lemma literals_start (s : string) :
  s <> "" -> exists y, literals s = "literal " ++ y.
Proof.
  destruct s as [|c [|c' s']]; [contradiction| |]; intros _; eexists; reflexivity.
Qed.

(** [trimEnd] keeps a text whose last piece it keeps. *)
Lemma trimEnd_append (a b : string) :
  trimEnd b = b -> b <> "" -> trimEnd (a ++ b) = a ++ b.
Proof.
  intros Hb Hne; induction a as [|x a IH]; [exact Hb|].
  simpl; rewrite IH.
  destruct (a ++ b) eqn:E; [|reflexivity].
  destruct a; [simpl in E; contradiction|discriminate].
Qed.

Lemma trimEnd_literal (c : ascii) :
  isAlphaNum c = true ->
  trimEnd ("literal " ++ String c EmptyString) = "literal " ++ String c EmptyString.
Proof. intros H; simpl; now rewrite (alnum_not_white c H). Qed.

(** The finalizer leaves the literals of letters and digits alone. *)
Lemma cleanUp_literals (s : string) :
  allAlphaNum s = true -> s <> "" -> orFallback (cleanUp (literals s)) = literals s.
Proof.
  intros Ha Hne.
  destruct (literals_end s Ha Hne) as (x & c & Hx & Hc).
  destruct (literals_start s Hne) as [y Hy].
  unfold cleanUp.
  assert (H1 : replaceSuffix ", then " "" (literals s) = literals s).
  { unfold replaceSuffix; rewrite Hx at 1.
    now rewrite endsWith_append_r by (simpl; lia). }
  rewrite H1.
  assert (H2 : replacePrefix "Start of string/line, then " "Start of string/line, "
                 (literals s) = literals s)
    by (unfold replacePrefix, startsWith; rewrite Hy at 1; reflexivity).
  rewrite H2.
  assert (H3 : replaceSuffix ", then end of string/line" ", end of string/line"
                 (literals s) = literals s).
  { unfold replaceSuffix.
    destruct (endsWith (literals s) ", then end of string/line") eqn:He;
      [|reflexivity].
    apply (endsWith_trans _ _ "/line") in He; [|reflexivity].
    rewrite Hx, endsWith_append_r in He by (simpl; lia); discriminate. }
  rewrite H3.
  assert (H4 : trim (literals s) = literals s).
  { assert (Ht : trimStart (literals s) = literals s) by (rewrite Hy; reflexivity).
    unfold trim; rewrite Ht, Hx.
    apply trimEnd_append; [now apply trimEnd_literal|discriminate]. }
  rewrite H4, Hy; reflexivity.
Qed.

(** X7: a source made of letters and digits only is narrated as the literal
    of each character, in order, joined by ", then "; it comes out the same
    whether it is passed as a string or as the source of a compiled
    pattern. *)
Theorem X7_letters_and_digits (s flags : string) (fuel : nat) :
  allAlphaNum s = true -> s <> "" -> String.length s <= fuel ->
  regexToEnglish fuel (JSStr s) = Some (Return (literals s))
  /\ regexToEnglish fuel (JSRegExp s flags) = Some (Return (literals s)).
Proof.
  intros Ha Hne Hf.
  assert (Hn : narrate fuel s = Some (literals s)).
  { unfold narrate; rewrite (alnum_no_entry s Ha).
    replace fuel with (String.length s + (fuel - String.length s)) by lia.
    rewrite (scan_literals s "" "" "" _ s) by (rewrite ?append_empty_r; auto).
    rewrite whileLoop_done by (simpl; lia); cbn [snd].
    unfold connect; rewrite wantsConnector_eq, charAt_ge by (simpl; lia).
    cbn [append]; now rewrite (cleanUp_literals s Ha Hne). }
  assert (Hs : stripSlashes true s = s).
  { rewrite stripSlashes_true.
    assert (Hno : forall t, allAlphaNum t = true -> endsWithSlashFlags t = false).
    { induction t as [|a t IH]; [reflexivity|]; simpl.
      intros H; apply andb_prop in H as [Hc Ht].
      now rewrite (alnum_neq a "/" Hc eq_refl), (IH Ht). }
    destruct s as [|c s']; [contradiction|].
    pose proof Ha as Ha'; simpl in Ha'; apply andb_prop in Ha' as [Hc _].
    unfold stripLeadingSlash; rewrite (alnum_neq c "/" Hc eq_refl).
    apply stripTrailing_none; now apply Hno. }
  split; unfold regexToEnglish, normalize; simpl.
  - destruct (String.eqb_spec s ""); [contradiction|simpl].
    now rewrite Hs, Hn.
  - now rewrite Hn.
Qed.

Lemma X7_letters_and_digits_witness :
  regexToEnglish 3 (JSStr "ab1")
  = Some (Return "literal a, then literal b, then literal 1").
Proof.
  exact (proj1 (X7_letters_and_digits "ab1" "" 3 eq_refl ltac:(discriminate)
                  (le_n 3))).
Defined.

(** The finalizer on the narration of an anchored run of letters and
    digits: only the connector behind the start anchor is shortened. *)
Lemma cleanUp_anchored (s : string) :
  allAlphaNum s = true -> s <> "" ->
  orFallback (cleanUp (("Start of string/line, then " ++ literals s)
                       ++ "end of string/line"))
  = "Start of string/line, " ++ literals s ++ "end of string/line".
Proof.
  intros Ha Hne.
  destruct (literals_end s Ha Hne) as (x & c & Hx & Hc).
  rewrite append_assoc; unfold cleanUp.
  assert (H1 : forall a, replaceSuffix ", then " "" (a ++ "end of string/line")
                         = a ++ "end of string/line").
  { intros a; unfold replaceSuffix.
    now rewrite endsWith_append_r by (simpl; lia). }
  rewrite <- append_assoc, H1, append_assoc.
  assert (H2 : forall t, replacePrefix "Start of string/line, then "
                           "Start of string/line, "
                           ("Start of string/line, then " ++ t)
                         = "Start of string/line, " ++ t).
  { intros t; unfold replacePrefix, startsWith.
    assert (Hp : String.prefix "Start of string/line, then "
                   ("Start of string/line, then " ++ t) = true)
      by (apply String.prefix_correct; apply substring_prefix).
    rewrite Hp; reflexivity. }
  rewrite H2.
  assert (H3 : replaceSuffix ", then end of string/line" ", end of string/line"
                 ("Start of string/line, " ++ literals s ++ "end of string/line")
               = "Start of string/line, " ++ literals s ++ "end of string/line").
  { unfold replaceSuffix.
    replace ("Start of string/line, " ++ literals s ++ "end of string/line")
      with (("Start of string/line, " ++ x)
            ++ "literal " ++ String c "" ++ "end of string/line")
      by (rewrite Hx, !append_assoc; reflexivity).
    now rewrite endsWith_append_r by (simpl; lia). }
  rewrite H3.
  assert (H4 : trim ("Start of string/line, " ++ literals s ++ "end of string/line")
               = "Start of string/line, " ++ literals s ++ "end of string/line").
  { unfold trim.
    assert (Ht : forall t, trimStart ("Start of string/line, " ++ t)
                           = "Start of string/line, " ++ t) by reflexivity.
    rewrite Ht, <- !append_assoc.
    apply trimEnd_append; [reflexivity|discriminate]. }
  rewrite H4; reflexivity.
Qed.

(** X8: a source [^body$] with a body of letters and digits is narrated
    as "Start of string/line, ", the literals of the body joined by
    ", then ", and "end of string/line" glued to the last literal without
    any separator. *)
Theorem X8_anchored_letters_and_digits (body : string) (v : JSValue) (fuel : nat) :
  allAlphaNum body = true -> body <> "" ->
  normalize v = inl ("^" ++ body ++ "$") ->
  String.length body + 2 <= fuel ->
  regexToEnglish fuel v
  = Some (Return ("Start of string/line, " ++ literals body
                  ++ "end of string/line")).
Proof.
  intros Ha Hne Hn Hf.
  set (pattern := "^" ++ body ++ "$") in *.
  assert (Hlen : String.length pattern = String.length body + 2)
    by (unfold pattern; simpl; rewrite length_append; simpl; lia).
  assert (Hend : charAt pattern (1 + String.length body) = Some "$"%char).
  { unfold pattern.
    change ("^" ++ body ++ "$") with (String "^" body ++ "$").
    change (1 + String.length body) with (String.length (String "^" body)).
    replace (String.length (String "^" body))
      with (String.length (String "^" body) + 0) by lia.
    now rewrite charAt_append_r. }
  unfold regexToEnglish; rewrite Hn; fold pattern.
  unfold narrate; unfold pattern at 1; rewrite caret_no_entry; fold pattern.
  replace fuel with (S (String.length body + (1 + (fuel - String.length body - 2))))
    by lia.
  rewrite whileLoop_step by (cbn [fst]; lia).
  rewrite (loopBody_eq pattern 0 "^" "" eq_refl).
  assert (H0 : connect pattern (fst (switchChar pattern 0 "^" "") + 1)
                 (snd (switchChar pattern 0 "^" ""))
               = "Start of string/line, then ").
  { unfold connect; rewrite wantsConnector_eq.
    now destruct (charAt pattern (fst (switchChar pattern 0 "^" "") + 1)). }
  rewrite H0; clear H0; cbn [fst switchChar Ascii.eqb Bool.eqb].
  change (0 + 1) with (String.length "^").
  rewrite (scan_literals body "^" "$" _ _ pattern eq_refl Ha Hne).
  change (String.length "^" + String.length body) with (1 + String.length body).
  assert (H1 : connect pattern (1 + String.length body)
                 ("Start of string/line, then " ++ literals body)
               = "Start of string/line, then " ++ literals body).
  { unfold connect; now rewrite wantsConnector_eq, Hend, !andb_false_r. }
  rewrite H1; clear H1.
  rewrite whileLoop_step by (cbn [fst]; lia).
  rewrite (loopBody_eq pattern _ _ _ Hend).
  assert (Hsw : forall i e, switchChar pattern i "$" e = (i, e ++ "end of string/line"))
    by reflexivity.
  rewrite Hsw; cbn [fst snd].
  rewrite whileLoop_done by (cbn [fst]; lia); cbn [snd].
  unfold connect; rewrite wantsConnector_eq, charAt_ge by lia.
  simpl option_map; f_equal; f_equal.
  apply (cleanUp_anchored body Ha Hne).
Qed.

Lemma X8_anchored_letters_and_digits_witness :
  regexToEnglish 5 (JSRegExp "^abc$" "")
  = Some (Return "Start of string/line, literal a, then literal b, then literal cend of string/line").
Proof.
  exact (X8_anchored_letters_and_digits "abc" (JSRegExp "^abc$" "") 5
           eq_refl ltac:(discriminate) eq_refl (le_n 5)).
Defined.

(** ** The returned text has no white space at its ends *)

Lemma trimStart_length (s : string) : String.length (trimStart s) <= String.length s.
Proof.
  induction s as [|a s IH]; simpl; [lia|].
  destruct (isWhiteSpace a); simpl; lia.
Qed.

Lemma trimStart_idem (s : string) : trimStart (trimStart s) = trimStart s.
Proof.
  induction s as [|a s IH]; simpl; [reflexivity|].
  destruct (isWhiteSpace a) eqn:E; [exact IH|simpl; now rewrite E].
Qed.

Lemma trimEnd_idem (s : string) : trimEnd (trimEnd s) = trimEnd s.
Proof.
  induction s as [|a s IH]; simpl; [reflexivity|].
  destruct (trimEnd s) as [|b t] eqn:E.
  - destruct (isWhiteSpace a) eqn:Ea; simpl; [reflexivity|now rewrite Ea].
  - change (trimEnd (String a (String b t)))
      with (match trimEnd (String b t) with
            | EmptyString => if isWhiteSpace a then EmptyString else String a EmptyString
            | u => String a u
            end).
    now rewrite IH.
Qed.

(** A text that [trimStart] keeps starts with no white space, and so does
    what [trimEnd] leaves of it. *)
Lemma trimStart_fixed_head (x : string) (c : ascii) :
  trimStart x = x -> charAt x 0 = Some c -> isWhiteSpace c = false.
Proof.
  destruct x as [|a x]; [discriminate|]; simpl.
  intros H [= <-]; destruct (isWhiteSpace a); [|reflexivity].
  pose proof (trimStart_length x) as Hl; rewrite H in Hl; simpl in Hl; lia.
Qed.

Lemma trimStart_trimEnd (x : string) :
  trimStart x = x -> trimStart (trimEnd x) = trimEnd x.
Proof.
  intros H; destruct x as [|a x]; [reflexivity|].
  pose proof (trimStart_fixed_head _ a H eq_refl) as Ha.
  simpl; destruct (trimEnd x); rewrite ?Ha; simpl; now rewrite Ha.
Qed.

Lemma trimEnd_fixed_last (t : string) (c : ascii) :
  trimEnd t = t -> charAt t (String.length t - 1) = Some c -> isWhiteSpace c = false.
Proof.
  induction t as [|a t IH]; [discriminate|].
  simpl; intros H Hc.
  destruct (trimEnd t) as [|b u] eqn:E.
  - destruct (isWhiteSpace a) eqn:Ea; [discriminate|].
    injection H as <-; simpl in Hc; now injection Hc as <-.
  - injection H as <-.
    apply IH; [reflexivity|].
    simpl in Hc |- *; now rewrite Nat.sub_0_r in *.
Qed.

(** Both ends of a trimmed text. *)
Lemma trim_ends (x : string) (c : ascii) :
  (charAt (trim x) 0 = Some c -> isWhiteSpace c = false)
  /\ (charAt (trim x) (String.length (trim x) - 1) = Some c -> isWhiteSpace c = false).
Proof.
  unfold trim; split.
  - apply trimStart_fixed_head.
    apply trimStart_trimEnd, trimStart_idem.
  - apply trimEnd_fixed_last, trimEnd_idem.
Qed.

(** X9: whatever text a call returns, its first and its last character are
    no white space: the curated strings and the fallback have none there,
    and a narration is trimmed last of all. *)
Theorem X9_result_is_trimmed (v : JSValue) (fuel : nat) (text : string) (c : ascii) :
  regexToEnglish fuel v = Some (Return text) ->
  (charAt text 0 = Some c -> isWhiteSpace c = false)
  /\ (charAt text (String.length text - 1) = Some c -> isWhiteSpace c = false).
Proof.
  unfold regexToEnglish, narrate; intros H.
  destruct (normalize v) as [pattern|message]; [|discriminate].
  destruct (firstMatch explanations pattern) as [x|] eqn:Hm.
  - injection H as <-.
    apply firstMatch_in in Hm; simpl in Hm.
    repeat (destruct Hm as [<-|Hm];
            [split; intros [= <-]; reflexivity|]); contradiction.
  - destruct (whileLoop fuel pattern (0, "")) as [raw|]; [|discriminate].
    injection H as <-; unfold orFallback.
    destruct (cleanUp raw =? ""); [split; intros [= <-]; reflexivity|].
    unfold cleanUp; apply trim_ends.
Qed.

Lemma X9_result_is_trimmed_witness :
  regexToEnglish 3 (JSStr "a| ") = Some (Return "literal a, then  OR literal")
  /\ isWhiteSpace "l" = false.
Proof.
  assert (H : regexToEnglish 3 (JSStr "a| ")
              = Some (Return "literal a, then  OR literal")) by reflexivity.
  split; [exact H|].
  exact (proj2 (X9_result_is_trimmed (JSStr "a| ") 3 _ "l" H) eq_refl).
Defined.

(** ** The loop only appends *)

Lemma quantifierPhrase_nonempty (q : string) : quantifierPhrase q <> "".
Proof.
  unfold quantifierPhrase; destruct (includes "," q); [|discriminate].
  destruct (nth_error (split "," q) 1) as [[|a m]|]; discriminate.
Qed.

Lemma escapePhrase_nonempty (x : option ascii) : escapePhrase x <> "".
Proof.
  unfold escapePhrase; destruct x as [c|]; [|discriminate].
  repeat (case_char; [discriminate|]); discriminate.
Qed.

Lemma switchChar_appends (pattern : string) (i : nat) (c : ascii) (e : string) :
  exists frag, frag <> "" /\ snd (switchChar pattern i c e) = e ++ frag.
Proof.
  unfold switchChar.
  repeat (case_char; [eexists; split; [|reflexivity]; discriminate|]).
  case_char.
  { exists (escapePhrase (charAt pattern (i + 1))); split;
      [apply escapePhrase_nonempty|reflexivity]. }
  case_char.
  { destruct (indexOf "]" pattern i); eexists; (split; [|reflexivity]); discriminate. }
  case_char.
  { destruct (indexOf "}" pattern i) as [k|].
    - eexists; split; [|reflexivity]; apply quantifierPhrase_nonempty.
    - eexists; split; [|reflexivity]; discriminate. }
  case_char.
  { destruct (findMatchingParen pattern i); eexists; (split; [|reflexivity]);
      discriminate. }
  repeat (case_char; [eexists; split; [|reflexivity]; discriminate|]).
  destruct (isAlphaNum c); eexists; (split; [|reflexivity]); discriminate.
Qed.

Lemma loopBody_appends (pattern : string) (i : nat) (e : string) :
  i < String.length pattern ->
  exists frag, frag <> "" /\ snd (loopBody pattern (i, e)) = e ++ frag.
Proof.
  intros Hi; destruct (charAt_lt pattern i Hi) as [c Hc].
  rewrite (loopBody_eq pattern i c e Hc); cbn [snd].
  destruct (switchChar_appends pattern i c e) as (frag & Hne & ->).
  unfold connect; destruct (wantsConnector _ _ _).
  - exists (frag ++ ", then "); split; [|apply append_assoc].
    destruct frag; [contradiction|discriminate].
  - now exists frag.
Qed.

(** X10: the loop never rewrites what it has emitted: each iteration
    appends a fragment that is not empty to the text so far, so the text a
    scan ends with starts with the text it was entered with, and the raw
    narration of a source that is not empty is not empty. *)
Theorem X10_loop_only_appends (pattern : string) :
  (forall i e, i < String.length pattern ->
     exists frag, frag <> "" /\ snd (loopBody pattern (i, e)) = e ++ frag)
  /\ (forall fuel i e raw, whileLoop fuel pattern (i, e) = Some raw ->
        exists rest, raw = e ++ rest
                     /\ (i < String.length pattern -> rest <> ""))
  /\ (forall fuel raw, pattern <> "" ->
        whileLoop fuel pattern (0, "") = Some raw -> raw <> "").
Proof.
  assert (Hloop : forall fuel i e raw, whileLoop fuel pattern (i, e) = Some raw ->
            exists rest, raw = e ++ rest
                         /\ (i < String.length pattern -> rest <> "")).
  { induction fuel as [|fuel IH]; intros i e raw H.
    - simpl in H; destruct (Nat.ltb_spec i (String.length pattern)); [discriminate|].
      injection H as <-; exists ""; split; [now rewrite append_empty_r|lia].
    - destruct (Nat.lt_ge_cases i (String.length pattern)) as [Hi|Hi].
      + rewrite whileLoop_step in H by exact Hi.
        destruct (loopBody_appends pattern i e Hi) as (frag & Hne & Hs).
        destruct (loopBody pattern (i, e)) as [i' e'] eqn:Hb; simpl in Hs; subst e'.
        destruct (IH i' _ raw H) as (rest & -> & _).
        exists (frag ++ rest); split; [apply append_assoc|].
        intros _; destruct frag; [contradiction|discriminate].
      + rewrite whileLoop_done in H by exact Hi.
        injection H as <-; exists ""; split; [now rewrite append_empty_r|lia]. }
  split; [intros i e; apply loopBody_appends|split; [exact Hloop|]].
  intros fuel raw Hne H.
  destruct (Hloop fuel 0 "" raw H) as (rest & -> & Hr).
  apply Hr; destruct pattern; [contradiction|simpl; lia].
Qed.

Lemma X10_loop_only_appends_witness :
  (exists frag, frag <> "" /\ snd (loopBody "a+" (1, "literal a")) = "literal a" ++ frag)
  /\ forall raw, whileLoop 2 "a+" (0, "") = Some raw -> raw <> "".
Proof.
  destruct (X10_loop_only_appends "a+") as (H1 & _ & H3).
  split; [apply H1; simpl; lia|].
  intros raw; apply H3; discriminate.
Defined.

(** ** The ends the normalizer cuts *)

Lemma stripTrailing_infix (t : string) :
  exists trail, t = stripTrailingSlashFlags t ++ trail
    /\ (trail = "" \/ exists flags, trail = "/" ++ flags
                                     /\ allFlagLetters flags = true).
Proof.
  induction t as [|c t (trail & Ht & Hcase)]; simpl.
  - exists ""; split; [reflexivity|now left].
  - destruct ((c =? "/")%char && allFlagLetters t) eqn:E.
    + apply andb_prop in E as [Hc Hf]; apply Ascii.eqb_eq in Hc; subst c.
      exists ("/" ++ t); split; [reflexivity|right; now exists t].
    + exists trail; split; [simpl; now rewrite <- Ht|exact Hcase].
Qed.

(** X12: for a string argument the pattern source is the string itself
    minus at most one slash at its very start and at most one slash with
    flag letters among g, i, m, u, y at its very end: nothing in between is
    touched, so a slash inside the pattern stays. *)
Theorem X12_normalizer_cuts_ends_only (s pattern : string) :
  normalize (JSStr s) = inl pattern ->
  exists lead trail,
    s = lead ++ pattern ++ trail
    /\ (lead = "" \/ lead = "/")
    /\ (trail = "" \/ exists flags, trail = "/" ++ flags
                                     /\ allFlagLetters flags = true).
Proof.
  unfold normalize; simpl.
  destruct (String.eqb_spec s "") as [|Hne]; [discriminate|simpl].
  intros [= <-]; rewrite stripSlashes_true.
  destruct (stripTrailing_infix (stripLeadingSlash s)) as (trail & Ht & Hcase).
  destruct s as [|c s]; [contradiction|].
  unfold stripLeadingSlash in *.
  destruct (Ascii.eqb_spec c "/") as [->|_].
  - exists "/", trail; split; [simpl; now rewrite <- Ht|split; [now right|exact Hcase]].
  - exists "", trail; split; [exact Ht|split; [now left|exact Hcase]].
Qed.

Lemma X12_normalizer_cuts_ends_only_witness :
  exists lead trail, "/a/b/gi" = lead ++ "a/b" ++ trail
    /\ (lead = "" \/ lead = "/")
    /\ (trail = "" \/ exists flags, trail = "/" ++ flags
                                     /\ allFlagLetters flags = true).
Proof. exact (X12_normalizer_cuts_ends_only "/a/b/gi" "a/b" eq_refl). Defined.
